(** * soccer-cli: a shallow embedding of [soccer/main.py]

    The program is a command-line client: it reads static tables, issues
    HTTP GET requests against a statistics service and a live-score service,
    post-processes the JSON answers and hands them to a writer.

    The embedding keeps the program's shape.  Python values coming from
    [req.json()] are modelled by the type [json]; Python exceptions by the
    type [exn]; the effects of the handlers (requests, terminal output,
    sleeping, calls of the writer) by a small monad [M] that threads the
    process-wide [headers] global and the number of requests sent so far, and
    that accumulates the chronological list of effects.  The loader of the
    API key, which runs before [main], has its own state in the module
    [Credentials]: the environment variable, the configuration file and the
    answers given at the prompt. *)

From Stdlib Require Import ZArith String Ascii List Lia DecimalString Sorted.
From stdpp Require Import base option list gmap strings.

Set Warnings "-register-all".
Local Open Scope string_scope.
Local Open Scope Z_scope.
Local Open Scope list_scope.

(** ** Python values *)

(** The result of [json.load] / [req.json()].  Objects are association lists:
    a Python [dict] keeps the insertion order of its keys.  Numbers are the
    integers; the services' non-integer numbers play no role in [main.py]. *)
Inductive json : Type :=
  | JNull
  | JBool (b : bool)
  | JNum (n : Z)
  | JStr (s : string)
  | JArr (items : list json)
  | JObj (fields : list (string * json)).

(** The exceptions that [main.py] raises itself or provokes in the
    interpreter.  [APIErrorException] and [IncorrectParametersException] come
    from [soccer.exceptions]; both carry the message they are built with. *)
Inductive exn : Type :=
  | APIErrorException (message : string)
  | IncorrectParametersException (message : string)
  | AttributeError (attribute : string)
  | KeyError (key : string)
  | NameError (name : string)
  | TypeError (what : string)
  | ValueError (what : string).

(** What a Python call produces: a value, an exception that is propagating,
    or nothing because the bound on the depth of the recursion was reached. *)
Inductive result (A : Type) : Type :=
  | Ok (a : A)
  | Raised (e : exn)
  | OutOfFuel.
Arguments Ok {A} a.
Arguments Raised {A} e.
Arguments OutOfFuel {A}.

#[global] Instance result_ret : MRet result := λ A a, Ok a.
#[global] Instance result_bind : MBind result := λ A B f r,
  match r with
  | Ok a => f a
  | Raised e => Raised e
  | OutOfFuel => OutOfFuel
  end.

(** [str(n)] for an integer. *)
Definition str_int (n : Z) : string := NilZero.string_of_int (Z.to_int n).

(** [d[key]] on an association list, first binding. *)
Fixpoint assoc (key : string) (fields : list (string * json)) : option json :=
  match fields with
  | [] => None
  | (k, v) :: rest => if String.eqb k key then Some v else assoc key rest
  end.

(** [d[key] = v] on a [dict]: an existing key keeps its place, a new one goes
    last. *)
Fixpoint assoc_set (key : string) (v : json) (fields : list (string * json))
  : list (string * json) :=
  match fields with
  | [] => [(key, v)]
  | (k, x) :: rest =>
      if String.eqb k key then (k, v) :: rest else (k, x) :: assoc_set key v rest
  end.

(** [x[key]] with a string key. *)
Definition getitem (x : json) (key : string) : result json :=
  match x with
  | JObj fields =>
      match assoc key fields with
      | Some v => Ok v
      | None => Raised (KeyError key)
      end
  | JArr _ => Raised (TypeError "list indices must be integers or slices, not str")
  | JStr _ => Raised (TypeError "string indices must be integers")
  | _ => Raised (TypeError "object is not subscriptable")
  end.

(** [x[key] = v] with a string key. *)
Definition setitem (x : json) (key : string) (v : json) : result json :=
  match x with
  | JObj fields => Ok (JObj (assoc_set key v fields))
  | JArr _ => Raised (TypeError "list indices must be integers or slices, not str")
  | _ => Raised (TypeError "object does not support item assignment")
  end.

(** [len(x)].  For a string the model counts bytes where Python counts code
    points; the program only compares the length with 0. *)
Definition len (x : json) : result Z :=
  match x with
  | JArr items => Ok (Z.of_nat (length items))
  | JObj fields => Ok (Z.of_nat (length fields))
  | JStr s => Ok (Z.of_nat (String.length s))
  | _ => Raised (TypeError "object has no len()")
  end.

(** The elements that [for game in x] visits. *)
Definition iter (x : json) : result (list json) :=
  match x with
  | JArr items => Ok items
  | JObj fields => Ok (map (λ kv, JStr (fst kv)) fields)
  | JStr s => Ok (map (λ c, JStr (String c EmptyString)) (list_ascii_of_string s))
  | _ => Raised (TypeError "object is not iterable")
  end.

(** [x < n] for an integer [n] (Python 3: only numbers are ordered). *)
Definition lt_int (x : json) (n : Z) : result bool :=
  match x with
  | JNum m => Ok (m <? n)%Z
  | JBool b => Ok ((if b then 1 else 0) <? n)%Z
  | _ => Raised (TypeError "'<' not supported between these instances")
  end.

(** ["{0}".format(x)] for the values that pass [lt_int]. *)
Definition format_json (x : json) : string :=
  match x with
  | JNum m => str_int m
  | JBool true => "True"
  | JBool false => "False"
  | JNull => "None"
  | JStr s => s
  | JArr _ => "[...]"
  | JObj _ => "{...}"
  end.

(** [x == s] for a string [s]. *)
Definition eq_str (x : json) (s : string) : bool :=
  match x with
  | JStr t => String.eqb t s
  | _ => false
  end.

(** ** The world around the program *)

(** An answer of [requests.get]: the status code and the body, [None] when the
    body is not JSON. *)
Record response : Type := { status_code : Z; body : option json }.

(** [req.json()]. *)
Definition json_of (req : response) : result json :=
  match body req with
  | Some v => Ok v
  | None => Raised (ValueError "No JSON object could be decoded")
  end.

(** An entry of [teams.json] and of [leagues.json]. *)
Record team : Type :=
  { team_code : string; team_id : Z; team_name : string; team_league_name : string }.
Record league_info : Type := { league_code : string; league_name : string }.

(** Everything [main.py] takes from outside its own text: the tables of the
    modules [leagueids], [leaguenameslive] and [leaguekeys], the bundled
    [teams.json] and [leagues.json], the remote services (the answer to the
    [n]-th request of the run, by URL), and the interpreter's [int] on strings. *)
Class World : Type := {
  LEAGUE_IDS : gmap string Z;
  LEAGUE_NAMES : gmap string string;
  LEAGUE_KEYS : gmap string string;
  TEAM_DATA : list team;
  LEAGUE_DATA : list league_info;
  remote : nat → string → response;
  int_of_string : string → option Z
}.

(** Modelled from the spec: [soccer.writers] is not among the sources.  A writer
    is the output target selected once per invocation, with the destination
    path it was given; its operations are write-only and appear as [Render]
    effects. *)
Record Writer : Type := { writer_format : string; writer_file : option string }.

(** The operations of a writer, with the arguments [main.py] passes. *)
Inductive render : Type :=
  | live_scores (scores : json) (use_12_hour_format : bool)
  | team_scores (scores : json) (time : Z) (show_upcoming use_12_hour_format : bool)
  | league_scores (fixtures : json) (time : Z) (show_upcoming use_12_hour_format : bool)
  | standings (table : json) (league : string)
  | standings_extended (table : json) (league : string)
  | team_players (players : json).

(** The observable effects, in the order they happen. *)
Inductive event : Type :=
  | Request (url : string) (auth : option string)
  | Secho (text : string) (nl : bool)
  | Sleep (seconds : Z)
  | MakeWriter (w : Writer)
  | Render (w : Writer) (call : render).

(** ** The effect monad *)

(** The mutable context: the module-level global [headers] (unset until [main]
    assigns it) and the number of requests already sent. *)
Record ctx : Type := { headers : option string; sent : nat }.

Definition M (A : Type) : Type := ctx → result A * ctx * list event.

(** A run that happens after the effects [t]. *)
Definition prefixed {A : Type} (t : list event) (run : result A * ctx * list event)
  : result A * ctx * list event :=
  (run.1.1, run.1.2, t ++ run.2).

#[global] Instance M_ret : MRet M := λ A a c, (Ok a, c, []).
#[global] Instance M_bind : MBind M := λ A B f m c,
  match m c with
  | (Ok a, c1, t1) => prefixed t1 (f a c1)
  | (Raised e, c1, t1) => (Raised e, c1, t1)
  | (OutOfFuel, c1, t1) => (OutOfFuel, c1, t1)
  end.

Definition raise {A : Type} (e : exn) : M A := λ c, (Raised e, c, []).
Definition out_of_fuel {A : Type} : M A := λ c, (OutOfFuel, c, []).
Definition emit (e : event) : M unit := λ c, (Ok tt, c, [e]).

(** A pure Python computation inside [M]. *)
Definition lift {A : Type} (r : result A) : M A := λ c, (r, c, []).

(** [try: body / except APIErrorException as e: handler(e.args[0])]. *)
Definition try_except_api {A : Type} (body : M A) (handler : string → M A) : M A :=
  λ c,
    match body c with
    | (Raised (APIErrorException message), c1, t1) => prefixed t1 (handler message c1)
    | other => other
    end.

(** [try: body / except IncorrectParametersException as e: handler], the
    handler being given the argument the exception was made with. *)
Definition try_except_params {A : Type} (body : M A) (handler : string → M A) : M A :=
  λ c,
    match body c with
    | (Raised (IncorrectParametersException message), c1, t1) =>
        prefixed t1 (handler message c1)
    | other => other
    end.

(** [click.secho(text, ...)]; colours and weights are cosmetic. *)
Definition secho (text : string) : M unit := emit (Secho text true).
Definition secho_nonl (text : string) : M unit := emit (Secho text false).
(** [click.echo()]. *)
Definition echo : M unit := emit (Secho "" true).
(** [time.sleep(seconds)]. *)
Definition sleep (seconds : Z) : M unit := emit (Sleep seconds).

Definition read_headers : M string := λ c,
  match headers c with
  | Some h => (Ok h, c, [])
  | None => (Raised (NameError "headers"), c, [])
  end.

Definition set_headers (apikey : string) : M unit := λ c,
  (Ok tt, {| headers := Some apikey; sent := sent c |}, []).

Definition BASE_URL : string := "http://api.football-data.org/v1/".
Definition LIVE_URL : string := "http://soccer-cli.appspot.com/".
Definition LIVE_LEAGUES_URL : string := "http://soccer-cli.appspot.com/".

(** ** Sorting, as [sorted] does it *)

(** Python orders strings by code point; on UTF-8 text that is the order of the
    bytes. *)
Definition str_le (a b : string) : bool :=
  match String.compare a b with
  | Gt => false
  | _ => true
  end.

(** The key [(k["league"]["name"], k["code"])], compared as a tuple. *)
Definition team_key_le (a b : team) : bool :=
  match String.compare (team_league_name a) (team_league_name b) with
  | Lt => true
  | Gt => false
  | Eq => str_le (team_code a) (team_code b)
  end.

Fixpoint insert_sorted {A : Type} (le : A → A → bool) (x : A) (l : list A) : list A :=
  match l with
  | [] => [x]
  | y :: rest => if le x y then x :: y :: rest else y :: insert_sorted le x rest
  end.

(** [sorted(l)]: a stable sort (an element goes before the later ones it ties
    with). *)
Definition sorted {A : Type} (le : A → A → bool) (l : list A) : list A :=
  fold_right (insert_sorted le) [] l.

(** ** The command line *)

(** The values [click] passes to [main], one field per option. *)
Module Cli.
Record t : Type := {
  league : option string;
  time : Z;
  standings : bool;
  extended : bool;
  matchday : Z;
  team : option string;
  live : bool;
  refresh : Z;
  use12hour : bool;
  players : bool;
  output_format : string;
  output_file : option string;
  upcoming : bool;
  lookup : bool;
  listcodes : bool;
  listleagues : bool;
  apikey : string
}.
End Cli.

(** Modelled from the spec: [get_writer] of [soccer.writers] is not among the
    sources.  It is the factory that selects the output target once per
    invocation; constructing the writer is recorded as an effect. *)
Definition get_writer (output_format : string) (output_file : option string) : M Writer :=
  let w := {| writer_format := output_format; writer_file := output_file |} in
  emit (MakeWriter w);; mret w.

Section Program.
Context `{W : World}.

(** [requests.get(url, headers=auth)]: one network call. *)
Definition requests_get (url : string) (auth : option string) : M response := λ c,
  (Ok (remote (sent c) url), {| headers := headers c; sent := S (sent c) |},
   [Request url auth]).

(** [_get(url)].  The last test of the source reads [req.status_codes], an
    attribute a [requests] response does not have, so that line raises
    [AttributeError] whenever it is reached. *)
Definition _get (url : string) : M response :=
  h ← read_headers;
  req ← requests_get (BASE_URL +:+ url) (Some h);
  if status_code req =? 200 then mret req
  else if status_code req =? 400 then
    raise (APIErrorException "Invalid request. Check parameters.")
  else if status_code req =? 403 then
    raise (APIErrorException "This resource is restricted")
  else if status_code req =? 404 then
    raise (APIErrorException "This resource does not exist. Check parameters")
  else raise (AttributeError "status_codes").

(** What [_get] makes of the answer it received: the tests of lines 88-101
    read off as a function of the response. *)
Definition by_status (req : response) : result response :=
  if status_code req =? 200 then Ok req
  else if status_code req =? 400 then
    Raised (APIErrorException "Invalid request. Check parameters.")
  else if status_code req =? 403 then
    Raised (APIErrorException "This resource is restricted")
  else if status_code req =? 404 then
    Raised (APIErrorException "This resource does not exist. Check parameters")
  else Raised (AttributeError "status_codes").

(** [TEAM_NAMES = {team["code"]: team["id"] for team in TEAM_DATA}]: a later
    entry with the same code overrides an earlier one. *)
Definition TEAM_NAMES : gmap string Z :=
  fold_left (λ names t, <[team_code t := team_id t]> names) TEAM_DATA ∅.

(** [d[key]] on one of the static tables. *)
Definition dict_getitem {V : Type} (d : gmap string V) (key : string) : result V :=
  match d !! key with
  | Some v => Ok v
  | None => Raised (KeyError key)
  end.

(** Truth value of an optional integer ([if team_id:]). *)
Definition truthy_int (x : option Z) : bool :=
  match x with
  | Some n => negb (n =? 0)
  | None => false
  end.

(** Truth value of an optional string ([if league:], [and output_file]). *)
Definition truthy_str (x : option string) : bool :=
  match x with
  | Some s => negb (String.eqb s "")
  | None => false
  end.

(** ["{team_id}".format(team_id=x)] for [x] an integer or [None]. *)
Definition format_opt_int (x : option Z) : string :=
  match x with
  | Some n => str_int n
  | None => "None"
  end.

(** [int(x)]. *)
Definition int_of (x : json) : result Z :=
  match x with
  | JNum n => Ok n
  | JBool b => Ok (if b then 1 else 0)
  | JStr s =>
      match int_of_string s with
      | Some n => Ok n
      | None => Raised (ValueError "invalid literal for int() with base 10")
      end
  | _ => Raised (TypeError "int() argument must be a string or a number")
  end.

(** A [for] loop whose body rewrites the element it visits. *)
Fixpoint for_each (body : json → result json) (games : list json) : result (list json) :=
  match games with
  | [] => Ok []
  | game :: rest =>
      game' ← body game;
      rest' ← for_each body rest;
      Ok (game' :: rest')
  end.

(** The dictionary [scores] after the loop has rewritten the elements of the
    list [scores["games"]] in place. *)
Definition mutated (scores container : json) (games' : list json) : json :=
  match scores, container with
  | JObj fields, JArr _ => JObj (assoc_set "games" (JArr games') fields)
  | _, _ => scores
  end.

(** Lines 117-123 and 149-155: the notice before the next poll, then
    [time.sleep(refresh)]. *)
Definition announce_refresh (refresh : Z) : M unit :=
  echo;;
  secho_nonl "-------- Next refresh in ";;
  secho_nonl (str_int refresh +:+ " seconds");;
  secho " --------";;
  echo;;
  echo;;
  sleep refresh.

(** Lines 113-114: the body of the loop of [get_live_scores]. *)
Definition relabel_game (game : json) : result json :=
  raw ← getitem game "league";
  match raw with
  | JStr name =>
      match LEAGUE_KEYS !! name with
      | Some code => setitem game "league" (JStr code)
      | None => Ok game
      end
  | JArr _ | JObj _ => Raised (TypeError "unhashable type")
  | _ => Ok game
  end.

(** [get_live_scores(writer, use_12_hour_format, refresh)].  [fuel] bounds the
    depth of the self-recursion. *)
Fixpoint get_live_scores (fuel : nat) (writer : Writer) (use_12_hour_format : bool)
    (refresh : Z) : M unit :=
  match fuel with
  | O => out_of_fuel
  | S fuel =>
      req ← requests_get LIVE_URL None;
      if status_code req =? 200 then
        scores ← lift (json_of req);
        container ← lift (getitem scores "games");
        n ← lift (len container);
        if n =? 0 then secho "No live action currently"
        else
          games ← lift (iter container);
          games' ← lift (for_each relabel_game games);
          emit (Render writer (live_scores (mutated scores container games')
                                 use_12_hour_format));;
          if 0 <? refresh then
            announce_refresh refresh;;
            get_live_scores fuel writer use_12_hour_format refresh
          else mret tt
      else secho "There was problem getting live scores"
  end.

(** Lines 139-142: the loop of [get_live_league], which appends the games it
    keeps to [filtered_scores["games"]]. *)
Fixpoint keep_league (league : string) (games : list json) : result (list json) :=
  match games with
  | [] => Ok []
  | game :: rest =>
      raw ← getitem game "league";
      name ← dict_getitem LEAGUE_NAMES league;
      if eq_str raw name then
        game' ← setitem game "league" (JStr league);
        rest' ← keep_league league rest;
        Ok (game' :: rest')
      else keep_league league rest
  end.

(** [get_live_league(writer, use_12_hour_format, league, refresh)]. *)
Fixpoint get_live_league (fuel : nat) (writer : Writer) (use_12_hour_format : bool)
    (league : string) (refresh : Z) : M unit :=
  match fuel with
  | O => out_of_fuel
  | S fuel =>
      req ← requests_get LIVE_LEAGUES_URL None;
      if status_code req =? 200 then
        scores ← lift (json_of req);
        container ← lift (getitem scores "games");
        n ← lift (len container);
        if n =? 0 then secho "No live action currently"
        else
          games ← lift (iter container);
          kept ← lift (keep_league league games);
          if Z.of_nat (length kept) =? 0 then
            secho ("No live action currently for " +:+ league +:+ ".")
          else
            emit (Render writer (live_scores (JObj [("games", JArr kept)])
                                   use_12_hour_format));;
            if 0 <? refresh then
              announce_refresh refresh;;
              get_live_league fuel writer use_12_hour_format league refresh
            else mret tt
      else secho "There was problem getting live scores"
  end.

(** [get_team_scores(team, time, writer, show_upcoming, use_12_hour_format)]. *)
Definition get_team_scores (team : string) (time : Z) (writer : Writer)
    (show_upcoming use_12_hour_format : bool) : M unit :=
  let team_id := TEAM_NAMES !! team in
  let time_frame := if show_upcoming then "n" else "p" in
  if truthy_int team_id then
    try_except_api
      (req ← _get ("teams/" +:+ format_opt_int team_id +:+ "/fixtures?timeFrame="
                     +:+ time_frame +:+ str_int time);
       scores ← lift (json_of req);
       n ← lift (getitem scores "fixtures" ≫= len);
       if n =? 0 then
         let word := if show_upcoming then "next" else "past" in
         secho ("No action during " +:+ word +:+ " " +:+ str_int time
                  +:+ " days. Change the time parameter to get more fixtures.")
       else
         emit (Render writer (team_scores scores time show_upcoming use_12_hour_format)))
      (λ message, secho message)
  else secho "Team code is not correct.".

(** [get_matchday_standings(league, writer, extended, matchday)]. *)
Definition get_matchday_standings (league : string) (writer : Writer) (extended : bool)
    (matchday : Z) : M unit :=
  league_id ← lift (dict_getitem LEAGUE_IDS league);
  try_except_api
    (req ← _get ("competitions/" +:+ str_int league_id);
     competition ← lift (json_of req);
     current ← lift (getitem competition "currentMatchday");
     behind ← lift (lt_int current matchday);
     if behind : bool then
       secho ("The current matchday for this league is " +:+ format_json current
                +:+ ", introduce a value that is less than or equal to it.")
     else
       req ← _get ("competitions/" +:+ str_int league_id +:+ "/leagueTable/?matchday="
                     +:+ str_int matchday);
       table ← lift (json_of req);
       if extended then emit (Render writer (standings_extended table league))
       else emit (Render writer (standings table league)))
    (λ _, secho ("No standings availble for " +:+ league +:+ ".")).

(** [get_standings(league, writer, extended)]. *)
Definition get_standings (league : string) (writer : Writer) (extended : bool) : M unit :=
  league_id ← lift (dict_getitem LEAGUE_IDS league);
  try_except_api
    (req ← _get ("competitions/" +:+ str_int league_id +:+ "/leagueTable");
     table ← lift (json_of req);
     if extended then emit (Render writer (standings_extended table league))
     else emit (Render writer (standings table league)))
    (λ _, secho ("No standings availble for " +:+ league +:+ ".")).

(** [get_league_scores(league, time, writer, show_upcoming, use_12_hour_format)];
    [league] is [None] when the option was not given. *)
Definition get_league_scores (league : option string) (time : Z) (writer : Writer)
    (show_upcoming use_12_hour_format : bool) : M unit :=
  let time_frame := if show_upcoming then "n" else "p" in
  if truthy_str league then
    let league := default "" league in
    try_except_api
      (league_id ← lift (dict_getitem LEAGUE_IDS league);
       req ← _get ("competitions/" +:+ str_int league_id +:+ "/fixtures?timeFrame="
                     +:+ time_frame +:+ str_int time);
       fixtures_results ← lift (json_of req);
       n ← lift (getitem fixtures_results "fixtures" ≫= len);
       if n =? 0 then
         let word := if show_upcoming then "next" else "past" in
         secho ("No " +:+ league +:+ " matches in the " +:+ word +:+ " "
                  +:+ str_int time +:+ " days.")
       else
         emit (Render writer (league_scores fixtures_results time show_upcoming
                                use_12_hour_format)))
      (λ _, secho "No data for the given league.")
  else
    try_except_api
      (req ← _get ("fixtures?timeFrame=" +:+ time_frame +:+ str_int time);
       fixtures_results ← lift (json_of req);
       emit (Render writer (league_scores fixtures_results time show_upcoming
                              use_12_hour_format)))
      (λ _, secho "No data available.").

(** [get_team_players(team, writer)]. *)
Definition get_team_players (team : string) (writer : Writer) : M unit :=
  let team_id := TEAM_NAMES !! team in
  try_except_api
    (req ← _get ("teams/" +:+ format_opt_int team_id +:+ "/players");
     players ← lift (json_of req);
     count ← lift (getitem players "count" ≫= int_of);
     if count =? 0 then secho "No players found for this team"
     else emit (Render writer (team_players players)))
    (λ _, secho "No data for the team. Please check the team code.").

(** [map_team_id(code)]: the first entry of [TEAM_DATA] with that code. *)
Definition map_team_id (code : string) : M unit :=
  match List.find (λ team, String.eqb (team_code team) code) TEAM_DATA with
  | Some team => secho (team_name team)
  | None => secho "No team found for this code"
  end.

(** A [for] loop run for its effects. *)
Fixpoint for_ {A : Type} (items : list A) (body : A → M unit) : M unit :=
  match items with
  | [] => mret tt
  | item :: rest => body item;; for_ rest body
  end.

(** [list_team_codes()]. *)
Definition list_team_codes : M unit :=
  let cleanlist := sorted team_key_le TEAM_DATA in
  let leaguenames := sorted str_le (remove_dups (map team_league_name cleanlist)) in
  for_ leaguenames (λ league,
    let teams := List.filter (λ team, String.eqb (team_league_name team) league) cleanlist in
    secho league;;
    for_ teams (λ team,
      if negb (String.eqb (team_code team) "null") then
        secho (team_code team +:+ ": " +:+ team_name team)
      else mret tt);;
    secho "").

(** [list_league_codes()]. *)
Definition list_league_codes : M unit :=
  for_ LEAGUE_DATA (λ league, secho (league_code league +:+ ": " +:+ league_name league)).

(** The [try:] block of [main], lines 386-430. *)
Definition main_try (fuel : nat) (a : Cli.t) : M unit :=
  if String.eqb (Cli.output_format a) "stdout" && truthy_str (Cli.output_file a) then
    raise (IncorrectParametersException
             "Printing output to stdout and saving to a file are mutually exclusive")
  else
    writer ← get_writer (Cli.output_format a) (Cli.output_file a);
    if Cli.listcodes a then list_team_codes
    else if Cli.listleagues a then list_league_codes
    else if Cli.live a then
      if truthy_str (Cli.league a) then
        get_live_league fuel writer (Cli.use12hour a) (default "" (Cli.league a))
          (Cli.refresh a)
      else get_live_scores fuel writer (Cli.use12hour a) (Cli.refresh a)
    else if Cli.standings a then
      if negb (truthy_str (Cli.league a)) then
        raise (IncorrectParametersException
                 "Please specify a league. Example --standings --league=EPL")
      else if 0 <? Cli.matchday a then
        get_matchday_standings (default "" (Cli.league a)) writer (Cli.extended a)
          (Cli.matchday a)
      else get_standings (default "" (Cli.league a)) writer (Cli.extended a)
    else if Cli.time a <? 1 then
      raise (IncorrectParametersException "Please specify a time value greater than 0.")
    else if truthy_str (Cli.team a) then
      let team := default "" (Cli.team a) in
      if Cli.lookup a then map_team_id team
      else if Cli.players a then get_team_players team writer
      else get_team_scores team (Cli.time a) writer (Cli.upcoming a) (Cli.use12hour a)
    else
      get_league_scores (Cli.league a) (Cli.time a) writer (Cli.upcoming a)
        (Cli.use12hour a).

(** [e.message] on an exception of [soccer.exceptions].  The two classes
    there add nothing to [Exception], and a Python 3 exception has [args] but
    no attribute [message] (line 178 reads [e.args[0]]): the lookup raises
    [AttributeError]. *)
Definition exception_message (e : string) : M string :=
  raise (AttributeError "message").

(** [main(...)], the body of the [click] command.  The option values arrive
    parsed: [click.Choice] has already refused a league outside [LEAGUE_IDS] and
    a team outside [TEAM_NAMES].  [fuel] bounds the live handlers' recursion.
    The handler of line 432 evaluates [e.message] before it calls
    [click.secho]. *)
Definition main (fuel : nat) (a : Cli.t) : M unit :=
  set_headers (Cli.apikey a);;
  try_except_params (main_try fuel a)
    (λ e, message ← exception_message e; secho message).

End Program.

(** ** Reading a run *)

Definition outcome {A : Type} (run : result A * ctx * list event) : result A := run.1.1.
Definition final {A : Type} (run : result A * ctx * list event) : ctx := run.1.2.
Definition trace {A : Type} (run : result A * ctx * list event) : list event := run.2.

Definition is_request (e : event) : bool :=
  match e with
  | Request _ _ => true
  | _ => false
  end.

(** The network calls among the effects of a run. *)
Definition requests (t : list event) : list event := List.filter is_request t.

(** ** Reading live games *)

(** The league a live game is tagged with: the string under its ["league"]
    key. *)
Definition league_of (game : json) : option string :=
  match game with
  | JObj fields =>
      match assoc "league" fields with
      | Some (JStr name) => Some name
      | _ => None
      end
  | _ => None
  end.

(** A live game of the data model: an object that carries a league name. *)
Definition is_live_game (game : json) : bool :=
  match league_of game with
  | Some _ => true
  | None => false
  end.

(** The game with its league tag replaced, every other field as it was. *)
Definition with_league (code : string) (game : json) : json :=
  match game with
  | JObj fields => JObj (assoc_set "league" (JStr code) fields)
  | _ => game
  end.

(** The game is tagged with the league name [name]. *)
Definition tagged (name : string) (game : json) : bool :=
  match league_of game with
  | Some l => String.eqb l name
  | None => false
  end.

(** [game'] is [game] carrying the league [code], read as a dictionary: it
    gives [code] under the key ["league"], what [game] gives under every other
    key, and has as many keys as [game]. *)
Definition relabelled (code : string) (game game' : json) : Prop :=
  getitem game' "league" = Ok (JStr code) ∧
  (∀ key, key ≠ "league" → getitem game' key = getitem game key) ∧
  len game' = len game.

(** What the terminal shows between two polls, and the pause. *)
Definition refresh_notice (refresh : Z) : list event :=
  [Secho "" true; Secho "-------- Next refresh in " false;
   Secho (str_int refresh +:+ " seconds") false; Secho " --------" true;
   Secho "" true; Secho "" true; Sleep refresh].

(** ** A small world to run the program in *)

Definition sample_teams : list team :=
  [ {| team_code := "FCB"; team_id := 5; team_name := "FC Bayern Muenchen";
       team_league_name := "1. Bundesliga" |};
    {| team_code := "MUFC"; team_id := 66; team_name := "Manchester United FC";
       team_league_name := "Premier League" |};
    {| team_code := "AFC"; team_id := 57; team_name := "Arsenal FC";
       team_league_name := "Premier League" |} ].

Definition sample_leagues : list league_info :=
  [ {| league_code := "BL"; league_name := "Bundesliga" |};
    {| league_code := "EPL"; league_name := "Premier League" |} ].

Definition sample_game (league home away : string) : json :=
  JObj [("league", JStr league); ("homeTeamName", JStr home); ("awayTeamName", JStr away);
        ("goalsHomeTeam", JNum 1); ("goalsAwayTeam", JNum 0)].

Definition sample_games : list json :=
  [sample_game "England - Premier League" "Arsenal FC" "Manchester United FC";
   sample_game "Germany - Bundesliga" "FC Bayern Muenchen" "Hamburger SV";
   sample_game "Iceland - Urvalsdeild" "KR Reykjavik" "Valur"].

Definition sample_live_fields : list (string * json) :=
  [("games", JArr sample_games); ("count", JNum 3)].

Definition sample_live : json := JObj sample_live_fields.

(** The services of the sample world: the live service always has the same
    three games; the statistics service knows competition 398 (at matchday 10)
    and its table, has no fixture in the past six days, has no team [None],
    and answers anything else with status 429. *)
Definition sample_remote (n : nat) (url : string) : response :=
  if String.eqb url LIVE_URL then {| status_code := 200; body := Some sample_live |}
  else if String.eqb url (BASE_URL +:+ "competitions/398") then
    {| status_code := 200; body := Some (JObj [("currentMatchday", JNum 10)]) |}
  else if String.eqb url (BASE_URL +:+ "competitions/398/leagueTable/?matchday=3") then
    {| status_code := 200; body := Some (JObj [("standing", JArr [])]) |}
  else if String.eqb url (BASE_URL +:+ "competitions/398/leagueTable") then
    {| status_code := 200;
       body := Some (JObj [("leagueCaption", JStr "Premier League"); ("matchday", JNum 10);
                           ("standing", JArr [JObj [("teamName", JStr "Arsenal FC");
                                                    ("points", JNum 22)]])]) |}
  else if String.eqb url (BASE_URL +:+ "fixtures?timeFrame=p6") then
    {| status_code := 200; body := Some (JObj [("fixtures", JArr [])]) |}
  else if String.eqb url (BASE_URL +:+ "teams/None/players") then
    {| status_code := 404; body := None |}
  else {| status_code := 429; body := None |}.

Definition sample_world : World := {|
  LEAGUE_IDS := {[ "EPL" := 398; "BL" := 394 ]};
  LEAGUE_NAMES := {[ "EPL" := "England - Premier League"; "BL" := "Germany - Bundesliga";
                     "SA" := "Italy - Serie A" ]};
  LEAGUE_KEYS := {[ "England - Premier League" := "EPL"; "Germany - Bundesliga" := "BL" ]};
  TEAM_DATA := sample_teams;
  LEAGUE_DATA := sample_leagues;
  remote := sample_remote;
  int_of_string := λ s, Z.of_int <$> NilZero.int_of_string s
|}.

(** The context of a handler called from [main]: [headers] assigned, nothing
    sent yet. *)
Definition sample_ctx : ctx := {| headers := Some "0123456789abcdef0123456789abcdef"; sent := 0 |}.

Definition sample_writer : Writer := {| writer_format := "stdout"; writer_file := None |}.

(** The context in which [main] starts: [headers] not assigned yet. *)
Definition fresh_ctx : ctx := {| headers := None; sent := 0 |}.

(** The command line [soccer] (no option given) and variations of it. *)
Definition sample_cli : Cli.t := {|
  Cli.league := None; Cli.time := 6; Cli.standings := false; Cli.extended := false;
  Cli.matchday := -1; Cli.team := None; Cli.live := false; Cli.refresh := -1;
  Cli.use12hour := false; Cli.players := false; Cli.output_format := "stdout";
  Cli.output_file := None; Cli.upcoming := false; Cli.lookup := false;
  Cli.listcodes := false; Cli.listleagues := false;
  Cli.apikey := "0123456789abcdef0123456789abcdef"
|}.



(** [soccer --standings --league=EPL], the matchday left at its default. *)
Definition cli_standings : Cli.t := {|
  Cli.league := Some "EPL"; Cli.time := 6; Cli.standings := true; Cli.extended := false;
  Cli.matchday := -1; Cli.team := None; Cli.live := false; Cli.refresh := -1;
  Cli.use12hour := false; Cli.players := false; Cli.output_format := "stdout";
  Cli.output_file := None; Cli.upcoming := false; Cli.lookup := false;
  Cli.listcodes := false; Cli.listleagues := false;
  Cli.apikey := "0123456789abcdef0123456789abcdef"
|}.

(** ** Reading a run, all paths *)

(** The calls of the writer among the effects of a run, in order. *)
Definition rendered (t : list event) : list render :=
  flat_map (λ e, match e with
                 | Render _ call => [call]
                 | _ => []
                 end) t.

(** The run ended with an [APIErrorException] propagating. *)
Definition api_error {A : Type} (r : result A) : bool :=
  match r with
  | Raised (APIErrorException _) => true
  | _ => false
  end.

(** The run ended with an [IncorrectParametersException] propagating. *)
Definition params_error {A : Type} (r : result A) : bool :=
  match r with
  | Raised (IncorrectParametersException _) => true
  | _ => false
  end.

(** [Q] holds of the result, the final context and the effects of running [m]
    from [c]. *)
Definition ensures {A : Type} (m : M A) (c : ctx)
    (Q : result A → ctx → list event → Prop) : Prop :=
  Q (outcome (m c)) (final (m c)) (trace (m c)).

(** The [i]-th answer of the live service is a non-empty list of live games. *)
Definition good_round `{W : World} (i : nat) : Prop :=
  ∃ fields games,
    remote i LIVE_URL = {| status_code := 200; body := Some (JObj fields) |} ∧
    assoc "games" fields = Some (JArr games) ∧
    games ≠ [] ∧
    forallb is_live_game games = true.

(** The [i]-th answer of the live service ends the polling, with the message
    [text]: it is not a 200 answer, or it holds no game. *)
Definition last_round `{W : World} (i : nat) (text : string) : Prop :=
  (status_code (remote i LIVE_URL) ≠ 200 ∧
   text = "There was problem getting live scores") ∨
  (∃ fields,
     remote i LIVE_URL = {| status_code := 200; body := Some (JObj fields) |} ∧
     assoc "games" fields = Some (JArr []) ∧
     text = "No live action currently").

(** A request to a path of the statistics service, carrying [auth]. *)
Definition stats_request (auth : option string) (e : event) : Prop :=
  ∃ path, e = Request (BASE_URL +:+ path) auth.

(** An effect that only writes to the terminal. *)
Definition is_secho (e : event) : bool :=
  match e with
  | Secho _ _ => true
  | _ => false
  end.

(** An exception of the program's own: the two classes of [soccer.exceptions]. *)
Definition own_error (e : exn) : bool :=
  match e with
  | APIErrorException _ | IncorrectParametersException _ => true
  | _ => false
  end.

(** What every run of a live handler satisfies: no exception of the program's
    own leaves it, its requests go to the live service and carry no token, and
    the writer only gets a non-empty list of games. *)
Definition live_run_ok (use_12_hour_format : bool) (r : result unit) (t : list event)
  : Prop :=
  api_error r = false ∧ params_error r = false ∧
  Forall (λ e, e = Request LIVE_URL None) (requests t) ∧
  Forall (λ call, ∃ scores games,
            call = live_scores scores use_12_hour_format ∧
            getitem scores "games" = Ok (JArr games) ∧ games ≠ [])
    (rendered t).

(** ** A second world, with a code carried twice and a live service that fails *)

Definition demo_teams : list team :=
  [ {| team_code := "FCB"; team_id := 5; team_name := "FC Bayern Muenchen";
       team_league_name := "1. Bundesliga" |};
    {| team_code := "null"; team_id := 720; team_name := "SV Sandhausen";
       team_league_name := "2. Bundesliga" |};
    {| team_code := "BVB"; team_id := 4; team_name := "Borussia Dortmund";
       team_league_name := "1. Bundesliga" |};
    {| team_code := "FCB"; team_id := 81; team_name := "FC Barcelona";
       team_league_name := "Primera Division" |} ].

(** The live service answers the first two requests of a run and then fails
    with status 503; the statistics service is down as well. *)
Definition demo_remote (n : nat) (url : string) : response :=
  if String.eqb url LIVE_URL && (n <? 2)%nat then
    {| status_code := 200; body := Some sample_live |}
  else {| status_code := 503; body := None |}.

Definition demo_world : World := {|
  LEAGUE_IDS := {[ "EPL" := 398; "BL" := 394 ]};
  LEAGUE_NAMES := {[ "EPL" := "England - Premier League" ]};
  LEAGUE_KEYS := {[ "England - Premier League" := "EPL" ]};
  TEAM_DATA := demo_teams;
  LEAGUE_DATA := sample_leagues;
  remote := demo_remote;
  int_of_string := λ s, Z.of_int <$> NilZero.int_of_string s
|}.

(** [soccer --list --live --standings --time=0]. *)
Definition cli_list_and_more : Cli.t := {|
  Cli.league := None; Cli.time := 0; Cli.standings := true; Cli.extended := false;
  Cli.matchday := -1; Cli.team := None; Cli.live := true; Cli.refresh := -1;
  Cli.use12hour := false; Cli.players := false; Cli.output_format := "stdout";
  Cli.output_file := None; Cli.upcoming := false; Cli.lookup := false;
  Cli.listcodes := true; Cli.listleagues := false;
  Cli.apikey := "0123456789abcdef0123456789abcdef"
|}.

(** [soccer --standings], no league named. *)
Definition cli_standings_no_league : Cli.t := {|
  Cli.league := None; Cli.time := 6; Cli.standings := true; Cli.extended := false;
  Cli.matchday := 3; Cli.team := None; Cli.live := false; Cli.refresh := -1;
  Cli.use12hour := false; Cli.players := false; Cli.output_format := "stdout";
  Cli.output_file := None; Cli.upcoming := false; Cli.lookup := false;
  Cli.listcodes := false; Cli.listleagues := false;
  Cli.apikey := "0123456789abcdef0123456789abcdef"
|}.

(** [soccer --live --league=EPL --standings --time=0 --team=AFC]. *)
Definition cli_live_and_more : Cli.t := {|
  Cli.league := Some "EPL"; Cli.time := 0; Cli.standings := true; Cli.extended := false;
  Cli.matchday := -1; Cli.team := Some "AFC"; Cli.live := true; Cli.refresh := -1;
  Cli.use12hour := false; Cli.players := false; Cli.output_format := "stdout";
  Cli.output_file := None; Cli.upcoming := false; Cli.lookup := false;
  Cli.listcodes := false; Cli.listleagues := false;
  Cli.apikey := "0123456789abcdef0123456789abcdef"
|}.

(** [soccer --team=AFC --lookup --players]. *)
Definition cli_lookup_and_players : Cli.t := {|
  Cli.league := None; Cli.time := 6; Cli.standings := false; Cli.extended := false;
  Cli.matchday := -1; Cli.team := Some "AFC"; Cli.live := false; Cli.refresh := -1;
  Cli.use12hour := false; Cli.players := true; Cli.output_format := "stdout";
  Cli.output_file := None; Cli.upcoming := false; Cli.lookup := true;
  Cli.listcodes := false; Cli.listleagues := false;
  Cli.apikey := "0123456789abcdef0123456789abcdef"
|}.

(** ** The API key *)

Module Credentials.

(** What the key loader reads and changes: the variable
    [SOCCER_CLI_API_TOKEN] of the environment ([None] when it is not set), the
    file [~/.soccer-cli.ini] with its content ([None] when it does not exist),
    the global [api_token], and how many answers the prompt has taken so far.
    The file can always be opened, read, written and removed. *)
Record os := {
  environ : option string;
  config : option string;
  api_token : option string;
  asked : nat
}.

(** The person at the keyboard: what [click.prompt] gets as its [n]-th answer,
    [None] when the prompt is interrupted there and raises [click.Abort]; and
    whether [int(s, 16)] accepts a string. *)
Class Terminal := {
  typed : nat → option string;
  hexadecimal : string → bool
}.

(** What shows on the terminal: the text of a [click.secho] and of a
    [click.prompt], without the styling. *)
Inductive output :=
| Echo (text : string)
| Prompt (text : string).

(** How a call ends: with a value, with [click.Abort] propagating, with
    [sys.exit(code)], or cut off when the depth of the model is used up. *)
Inductive ended :=
| Returns (key : string)
| Aborts
| Exits (code : Z)
| Unfinished.

(** [len(s)] counts code points: in UTF-8 text, the bytes that do not continue
    a character (those not of the form [10xxxxxx]). *)
Definition continues (a : ascii) : bool := (N.land (N_of_ascii a) 192 =? 128)%N.

Fixpoint len_str (s : string) : Z :=
  match s with
  | EmptyString => 0
  | String a rest => (if continues a then 0 else 1) + len_str rest
  end.

Definition set_config (content : option string) (st : os) : os :=
  {| environ := environ st; config := content; api_token := api_token st;
     asked := asked st |}.

Definition set_api_token (key : string) (st : os) : os :=
  {| environ := environ st; config := config st; api_token := Some key;
     asked := asked st |}.

Definition answered (st : os) : os :=
  {| environ := environ st; config := config st; api_token := api_token st;
     asked := S (asked st) |}.

(** The loop [while True:] of [get_input_key], lines 41-52; [fuel] bounds the
    number of prompts. *)
Fixpoint ask_key `{T : Terminal} (fuel : nat) (st : os) : ended * os * list output :=
  match fuel with
  | O => (Unfinished, st, [])
  | S fuel =>
    match typed (asked st) with
    | None => (Aborts, answered st, [Prompt "Enter API key"])
    | Some confkey =>
      if len_str confkey =? 32 then
        if hexadecimal confkey then
          (Returns confkey, answered st, [Prompt "Enter API key"])
        else
          let '(r, st', out) := ask_key fuel (answered st) in
          (r, st', Prompt "Enter API key" :: Echo "Invalid API key" :: out)
      else
        let '(r, st', out) := ask_key fuel (answered st) in
        (r, st', Prompt "Enter API key" :: Echo "Invalid API key" :: out)
    end
  end.

(** [get_input_key()]. *)
Definition get_input_key `{T : Terminal} (fuel : nat) (st : os) : ended * os * list output :=
  let '(r, st', out) := ask_key fuel st in
  (r, st',
   Echo "No API key found!"
   :: Echo ("Please visit " +:+ BASE_URL +:+ " and get an API token.")
   :: out).

(** Lines 72-81 of [load_config_key]: what is done with the key once it is
    typed or read. *)
Definition use_key (key : string) (st : os) (out : list output) :
    ended * os * list output :=
  if negb (String.eqb key "") then
    (Returns key, set_api_token key st, out)
  else
    (Exits 1, set_config None st,
     out ++ [Echo ("No API Token detected. Please visit " +:+ BASE_URL +:+
                   " and get an API Token, which will be used by Soccer CLI " +:+
                   "to get access to the data.")]).

(** [load_config_key()].  [open(config, "w")] creates the file, empty, before
    the key is asked for; it is closed, as it is then, when the [with] block is
    left, also by an exception. *)
Definition load_config_key `{T : Terminal} (fuel : nat) (st : os) :
    ended * os * list output :=
  match environ st with
  | Some token => (Returns token, set_api_token token st, [])
  | None =>
    match config st with
    | None =>
      let '(r, st', out) := get_input_key fuel (set_config (Some "") st) in
      match r with
      | Returns key => use_key key (set_config (Some key) st') out
      | _ => (r, st', out)
      end
    | Some key => use_key key st []
    end
  end.

(** Someone who types a word, then a string of 32 characters that is no
    number, then a key, and leaves at the fourth prompt. *)
Definition sample_terminal : Terminal := {|
  typed := λ n,
    match n with
    | 0%nat => Some "secret"
    | 1%nat => Some "0123456789abcdef0123456789abcdeg"
    | 2%nat => Some "0123456789abcdef0123456789abcdef"
    | _ => None
    end;
  hexadecimal := λ s,
    forallb (λ a, existsb (Ascii.eqb a) (list_ascii_of_string "0123456789abcdefABCDEF"))
      (list_ascii_of_string s)
|}.

(** Someone who leaves at the second prompt. *)
Definition leaving_terminal : Terminal := {|
  typed := λ n, match n with 0%nat => Some "secret" | _ => None end;
  hexadecimal := hexadecimal (Terminal := sample_terminal)
|}.

(** A first run: no variable, no file, nothing asked yet. *)
Definition first_run : os :=
  {| environ := None; config := None; api_token := None; asked := 0 |}.

End Credentials.

(** ** Reading a run of the key loader *)

(** An answer that [get_input_key] takes: 32 characters that [int(s, 16)]
    accepts. *)
Definition acceptable `{T : Credentials.Terminal} (s : string) : bool :=
  (Credentials.len_str s =? 32) && Credentials.hexadecimal s.

(** The terminal after [k] refused answers. *)
Definition refusals (k : nat) : list Credentials.output :=
  concat (repeat [Credentials.Prompt "Enter API key"; Credentials.Echo "Invalid API key"] k).

(** The state after [n] more answers. *)
Definition later (n : nat) (st : Credentials.os) : Credentials.os :=
  {| Credentials.environ := Credentials.environ st;
     Credentials.config := Credentials.config st;
     Credentials.api_token := Credentials.api_token st;
     Credentials.asked := Credentials.asked st + n |}.

(** The two lines that open [get_input_key]. *)
Definition key_notice : list Credentials.output :=
  [Credentials.Echo "No API key found!";
   Credentials.Echo ("Please visit " +:+ BASE_URL +:+ " and get an API token.")].

(** The last words of [load_config_key] before [sys.exit(1)]. *)
Definition no_token_notice : list Credentials.output :=
  [Credentials.Echo
     ("No API Token detected. Please visit " +:+ BASE_URL +:+
      " and get an API Token, which will be used by Soccer CLI " +:+
      "to get access to the data.")].

(** ** Stepping through a run *)

Section Runs.
Context {A B : Type}.
Implicit Types (m : M A) (f : A → M B) (c : ctx).

Lemma prefixed_nil (run : result A * ctx * list event) : prefixed [] run = run.
Proof. destruct run as [[r c] t]. reflexivity. Qed.

Lemma bind_ok m f c a c1 t1 :
  m c = (Ok a, c1, t1) → (m ≫= f) c = prefixed t1 (f a c1).
Proof. intros Hm. unfold mbind, M_bind. rewrite Hm. reflexivity. Qed.

Lemma bind_raised m f c e c1 t1 :
  m c = (Raised e, c1, t1) → (m ≫= f) c = (Raised e, c1, t1).
Proof. intros Hm. unfold mbind, M_bind. rewrite Hm. reflexivity. Qed.

Lemma bind_out_of_fuel m f c c1 t1 :
  m c = (OutOfFuel, c1, t1) → (m ≫= f) c = (OutOfFuel, c1, t1).
Proof. intros Hm. unfold mbind, M_bind. rewrite Hm. reflexivity. Qed.

(** The effects of [m ≫= f] are those of [m], then those of [f] if [m]
    returned. *)
Lemma trace_bind m f c :
  trace ((m ≫= f) c) =
    trace (m c) ++ match outcome (m c) with
                   | Ok a => trace (f a (final (m c)))
                   | _ => []
                   end.
Proof.
  unfold mbind, M_bind, trace, outcome, final.
  destruct (m c) as [[[a|e|] c1] t1]; cbn; [reflexivity | | ]; symmetry; apply app_nil_r.
Qed.

(** The effects of a [try] block come first, whatever the handler does. *)
Lemma trace_try_except_api (body : M A) (handler : string → M A) c :
  ∃ rest, trace (try_except_api body handler c) = trace (body c) ++ rest.
Proof.
  unfold try_except_api, trace.
  destruct (body c) as [[[a|e|] c1] t1]; cbn; try (exists []; symmetry; apply app_nil_r).
  destruct e; cbn; try (exists []; symmetry; apply app_nil_r).
  eexists; reflexivity.
Qed.

(** A pure step that returns has no effect of its own. *)
Lemma trace_lift_bind (a : A) f c : trace ((lift (Ok a) ≫= f) c) = trace (f a c).
Proof.
  unfold mbind, M_bind, lift, trace, prefixed. destruct (f a c) as [[r c1] t1]. reflexivity.
Qed.

Lemma trace_prefixed (t : list event) (run : result A * ctx * list event) :
  trace (prefixed t run) = t ++ trace run.
Proof. reflexivity. Qed.

End Runs.

(** ** The stats-API client *)

Section Client.
Context `{W : World}.

(** [_get] sends exactly one request, with the token of [headers], and its
    result is decided by the status code alone. *)
Lemma _get_run (url h : string) (n : nat) :
  _get url {| headers := Some h; sent := n |} =
    (by_status (remote n (BASE_URL +:+ url)),
     {| headers := Some h; sent := S n |},
     [Request (BASE_URL +:+ url) (Some h)]).
Proof.
  unfold _get, by_status, mbind, M_bind, read_headers, requests_get.
  cbn [headers sent].
  repeat (destruct (_ =? _)); reflexivity.
Qed.

(** A computation that starts with [_get] starts with its request. *)
Lemma trace_get_bind {B : Type} (url h : string) (n : nat) (f : response → M B) :
  trace ((_get url ≫= f) {| headers := Some h; sent := n |}) =
    Request (BASE_URL +:+ url) (Some h)
    :: match by_status (remote n (BASE_URL +:+ url)) with
       | Ok req => trace (f req {| headers := Some h; sent := S n |})
       | _ => []
       end.
Proof.
  rewrite trace_bind, _get_run. reflexivity.
Qed.

(** The three statuses that [_get] turns into an API error, and the one it
    returns. *)
Lemma by_status_handled (req : response) :
  (status_code req = 200 → by_status req = Ok req) ∧
  (status_code req = 400 →
     by_status req = Raised (APIErrorException "Invalid request. Check parameters.")) ∧
  (status_code req = 403 →
     by_status req = Raised (APIErrorException "This resource is restricted")) ∧
  (status_code req = 404 →
     by_status req =
       Raised (APIErrorException "This resource does not exist. Check parameters")).
Proof.
  unfold by_status. repeat split; intros ->; reflexivity.
Qed.

(** Every other status reaches the test on [req.status_codes]. *)
Lemma by_status_other (req : response) :
  status_code req ≠ 200 → status_code req ≠ 400 →
  status_code req ≠ 403 → status_code req ≠ 404 →
  by_status req = Raised (AttributeError "status_codes").
Proof.
  intros H200 H400 H403 H404. unfold by_status.
  apply Z.eqb_neq in H200, H400, H403, H404.
  rewrite H200, H400, H403, H404. reflexivity.
Qed.

(** [_get] never raises [IncorrectParametersException]. *)
Lemma by_status_not_params (req : response) (message : string) :
  by_status req ≠ Raised (IncorrectParametersException message).
Proof.
  unfold by_status. repeat (destruct (_ =? _)); discriminate.
Qed.

(** C1 (the code at status 429).  When the statistics service answers with
    status 429, [_get] sends its request and then fails on the attribute
    [status_codes]: the exception is an [AttributeError], not the
    [APIErrorException] for an exceeded rate that line 101 would raise, and so
    not one the handlers catch. *)
Theorem get_too_many_requests (url h : string) (n : nat) :
  status_code (remote n (BASE_URL +:+ url)) = 429 →
  _get url {| headers := Some h; sent := n |} =
    (Raised (AttributeError "status_codes"),
     {| headers := Some h; sent := S n |},
     [Request (BASE_URL +:+ url) (Some h)]).
Proof.
  intros H429. rewrite _get_run. f_equal. f_equal.
  apply by_status_other; rewrite H429; discriminate.
Qed.

End Client.

(** The sample service answers an unknown competition with status 429. *)
Lemma get_too_many_requests_witness :
  status_code (@remote sample_world 0 (BASE_URL +:+ "competitions/0")) = 429 ∧
  @_get sample_world "competitions/0" sample_ctx =
    (Raised (AttributeError "status_codes"),
     {| headers := headers sample_ctx; sent := 1 |},
     [Request (BASE_URL +:+ "competitions/0") (headers sample_ctx)]).
Proof.
  split.
  - reflexivity.
  - apply (@get_too_many_requests sample_world "competitions/0"). reflexivity.
Defined.

(** ** Team codes and the team table *)

Section Teams.
Context `{W : World}.
#[local] Arguments _get : simpl never.
#[local] Arguments String.append : simpl never.
#[local] Arguments str_int : simpl never.

Lemma fold_names_None (teams : list team) (names : gmap string Z) (code : string) :
  fold_left (λ names t, <[team_code t := team_id t]> names) teams names !! code = None ↔
  names !! code = None ∧ Forall (λ t, team_code t ≠ code) teams.
Proof.
  revert names. induction teams as [|t teams IH]; intros names; cbn [fold_left].
  - split; [intros H; split; [exact H | constructor] | intros [H _]; exact H].
  - rewrite IH. split.
    + intros [Hins Hrest].
      destruct (decide (team_code t = code)) as [Heq|Hne].
      * rewrite Heq, lookup_insert_eq in Hins. discriminate.
      * rewrite lookup_insert_ne in Hins by exact Hne.
        split; [exact Hins | constructor; assumption].
    + intros [Hnames Hall]. inversion Hall as [|? ? Hne Hrest]; subst.
      split; [|exact Hrest]. rewrite lookup_insert_ne by exact Hne. exact Hnames.
Qed.

(** A code is missing from [TEAM_NAMES] exactly when no entry of [TEAM_DATA]
    carries it. *)
Lemma TEAM_NAMES_None (code : string) :
  TEAM_NAMES !! code = None ↔ Forall (λ t, team_code t ≠ code) TEAM_DATA.
Proof.
  unfold TEAM_NAMES. rewrite fold_names_None. split.
  - intros [_ H]. exact H.
  - intros H. split; [apply lookup_empty | exact H].
Qed.

Lemma find_code_None (teams : list team) (code : string) :
  Forall (λ t, team_code t ≠ code) teams →
  List.find (λ team, String.eqb (team_code team) code) teams = None.
Proof.
  induction 1 as [|t teams Hne _ IH]; cbn [List.find]; [reflexivity|].
  apply String.eqb_neq in Hne. rewrite Hne. exact IH.
Qed.

(** C2 (the three handlers at a code outside the table).  For a team code that
    no entry of the team table carries, [get_team_scores] and [map_team_id]
    print their message and send nothing, whereas [get_team_players] formats
    the missing id into the path and sends the request [teams/None/players]
    before anything is reported. *)
Theorem unknown_team_code (team h : string) (n : nat) (writer : Writer) (time : Z)
    (show_upcoming use_12_hour_format : bool) :
  TEAM_NAMES !! team = None →
  get_team_scores team time writer show_upcoming use_12_hour_format
      {| headers := Some h; sent := n |} =
    (Ok tt, {| headers := Some h; sent := n |}, [Secho "Team code is not correct." true]) ∧
  map_team_id team {| headers := Some h; sent := n |} =
    (Ok tt, {| headers := Some h; sent := n |}, [Secho "No team found for this code" true]) ∧
  ∃ rest,
    trace (get_team_players team writer {| headers := Some h; sent := n |}) =
      Request (BASE_URL +:+ "teams/None/players") (Some h) :: rest.
Proof.
  intros Hnone. split; [|split].
  - unfold get_team_scores. rewrite Hnone. reflexivity.
  - unfold map_team_id. rewrite find_code_None by (apply TEAM_NAMES_None; exact Hnone).
    reflexivity.
  - unfold get_team_players. rewrite Hnone. cbn [format_opt_int].
    match goal with
    | |- context [try_except_api ?body ?handler ?c] =>
        destruct (trace_try_except_api body handler c) as [rest Hrest]; rewrite Hrest
    end.
    rewrite trace_get_bind. eexists. reflexivity.
Qed.

End Teams.

(** [XYZ] is no team of the sample table. *)
Lemma unknown_team_code_witness :
  @TEAM_NAMES sample_world !! "XYZ" = None ∧
  ∃ rest,
    trace (@get_team_players sample_world "XYZ" sample_writer sample_ctx) =
      Request (BASE_URL +:+ "teams/None/players") (headers sample_ctx) :: rest.
Proof.
  split.
  - reflexivity.
  - apply (@unknown_team_code sample_world "XYZ" _ 0 sample_writer 6 false false).
    reflexivity.
Defined.

(** The roster handler at [XYZ], a code of no team of the sample table: it
    issues a network call, the request [teams/None/players], and reports only
    what the service's answer 404 makes it report. *)
Lemma roster_handler_requests_unknown_code :
  @TEAM_NAMES sample_world !! "XYZ" = None ∧
  @get_team_players sample_world "XYZ" sample_writer sample_ctx =
    (Ok tt, {| headers := headers sample_ctx; sent := 1 |},
     [Request "http://api.football-data.org/v1/teams/None/players" (headers sample_ctx);
      Secho "No data for the team. Please check the team code." true]) ∧
  requests (trace (@get_team_players sample_world "XYZ" sample_writer sample_ctx)) =
    [Request "http://api.football-data.org/v1/teams/None/players" (headers sample_ctx)].
Proof. repeat split. Qed.

(** ** Empty results *)

Section EmptyResults.
Context `{W : World}.
#[local] Arguments _get : simpl never.
#[local] Arguments String.append : simpl never.
#[local] Arguments str_int : simpl never.

Variables (h : string) (n : nat) (writer : Writer) (time : Z).
Variables (show_upcoming use_12_hour_format : bool).

(** The league branch of [get_league_scores] has the guard of line 240: with no
    fixture in the answer it prints its message and the writer is not called. *)
Lemma league_fixtures_empty (league : string) (league_id : Z) (fixtures_results : json) :
  league ≠ "" →
  LEAGUE_IDS !! league = Some league_id →
  remote n (BASE_URL +:+ "competitions/" +:+ str_int league_id +:+ "/fixtures?timeFrame="
              +:+ (if show_upcoming then "n" else "p") +:+ str_int time) =
    {| status_code := 200; body := Some fixtures_results |} →
  getitem fixtures_results "fixtures" = Ok (JArr []) →
  get_league_scores (Some league) time writer show_upcoming use_12_hour_format
      {| headers := Some h; sent := n |} =
    (Ok tt, {| headers := Some h; sent := S n |},
     [Request (BASE_URL +:+ "competitions/" +:+ str_int league_id +:+ "/fixtures?timeFrame="
                 +:+ (if show_upcoming then "n" else "p") +:+ str_int time) (Some h);
      Secho ("No " +:+ league +:+ " matches in the "
               +:+ (if show_upcoming then "next" else "past") +:+ " " +:+ str_int time
               +:+ " days.") true]).
Proof.
  intros Hleague Hid Hreq Hfix. apply String.eqb_neq in Hleague.
  unfold get_league_scores, truthy_str, dict_getitem, try_except_api, mbind, M_bind.
  rewrite Hleague. cbn. rewrite Hid. cbn. rewrite _get_run, Hreq. cbn.
  rewrite Hfix. reflexivity.
Qed.

(** [get_team_scores] has the same guard, line 170. *)
Lemma team_fixtures_empty (team : string) (team_id : Z) (scores : json) :
  TEAM_NAMES !! team = Some team_id →
  team_id ≠ 0 →
  remote n (BASE_URL +:+ "teams/" +:+ str_int team_id +:+ "/fixtures?timeFrame="
              +:+ (if show_upcoming then "n" else "p") +:+ str_int time) =
    {| status_code := 200; body := Some scores |} →
  getitem scores "fixtures" = Ok (JArr []) →
  get_team_scores team time writer show_upcoming use_12_hour_format
      {| headers := Some h; sent := n |} =
    (Ok tt, {| headers := Some h; sent := S n |},
     [Request (BASE_URL +:+ "teams/" +:+ str_int team_id +:+ "/fixtures?timeFrame="
                 +:+ (if show_upcoming then "n" else "p") +:+ str_int time) (Some h);
      Secho ("No action during " +:+ (if show_upcoming then "next" else "past") +:+ " "
               +:+ str_int time
               +:+ " days. Change the time parameter to get more fixtures.") true]).
Proof.
  intros Hteam Hid Hreq Hfix. apply Z.eqb_neq in Hid.
  unfold get_team_scores, truthy_int, try_except_api, mbind, M_bind.
  rewrite Hteam, Hid. cbn. rewrite _get_run, Hreq. cbn.
  rewrite Hfix. reflexivity.
Qed.

(** [get_team_players] tests the count the service reports, line 270. *)
Lemma roster_empty (team : string) (players : json) :
  remote n (BASE_URL +:+ "teams/" +:+ format_opt_int (TEAM_NAMES !! team) +:+ "/players") =
    {| status_code := 200; body := Some players |} →
  getitem players "count" = Ok (JNum 0) →
  get_team_players team writer {| headers := Some h; sent := n |} =
    (Ok tt, {| headers := Some h; sent := S n |},
     [Request (BASE_URL +:+ "teams/" +:+ format_opt_int (TEAM_NAMES !! team) +:+ "/players")
        (Some h);
      Secho "No players found for this team" true]).
Proof.
  intros Hreq Hcount.
  unfold get_team_players, try_except_api, mbind, M_bind.
  rewrite _get_run, Hreq. cbn. rewrite Hcount. reflexivity.
Qed.

(** Both live handlers stop at an empty list of games, lines 109 and 134. *)
Lemma live_nothing (fuel : nat) (refresh : Z) (league : string) (hd : option string)
    (fields : list (string * json)) :
  remote n LIVE_URL = {| status_code := 200; body := Some (JObj fields) |} →
  assoc "games" fields = Some (JArr []) →
  get_live_scores (S fuel) writer use_12_hour_format refresh {| headers := hd; sent := n |} =
    (Ok tt, {| headers := hd; sent := S n |},
     [Request LIVE_URL None; Secho "No live action currently" true]) ∧
  get_live_league (S fuel) writer use_12_hour_format league refresh
      {| headers := hd; sent := n |} =
    (Ok tt, {| headers := hd; sent := S n |},
     [Request LIVE_LEAGUES_URL None; Secho "No live action currently" true]).
Proof.
  intros Hreq Hgames. split.
  - cbn [get_live_scores]. unfold mbind, M_bind, requests_get, lift.
    cbn [sent headers]. rewrite Hreq. cbn. rewrite Hgames. reflexivity.
  - cbn [get_live_league]. unfold mbind, M_bind, requests_get, lift.
    cbn [sent headers]. change LIVE_LEAGUES_URL with LIVE_URL. rewrite Hreq. cbn.
    rewrite Hgames. reflexivity.
Qed.

(** C3 (the branch of [get_league_scores] for no league, at an empty answer).
    When no league is given and the service answers the fixtures request with
    an empty list, the handler calls the writer with that empty result and
    prints no message: lines 251-255 have no test on the length. *)
Theorem global_fixtures_empty (fixtures_results : json) :
  remote n (BASE_URL +:+ "fixtures?timeFrame=" +:+ (if show_upcoming then "n" else "p")
              +:+ str_int time) =
    {| status_code := 200; body := Some fixtures_results |} →
  getitem fixtures_results "fixtures" = Ok (JArr []) →
  get_league_scores None time writer show_upcoming use_12_hour_format
      {| headers := Some h; sent := n |} =
    (Ok tt, {| headers := Some h; sent := S n |},
     [Request (BASE_URL +:+ "fixtures?timeFrame=" +:+ (if show_upcoming then "n" else "p")
                 +:+ str_int time) (Some h);
      Render writer (league_scores fixtures_results time show_upcoming
                       use_12_hour_format)]).
Proof.
  intros Hreq _.
  unfold get_league_scores, truthy_str, try_except_api, mbind, M_bind.
  rewrite _get_run, Hreq. reflexivity.
Qed.

End EmptyResults.

(** The sample service has no fixture in the past six days. *)
Lemma global_fixtures_empty_witness :
  getitem (JObj [("fixtures", JArr [])]) "fixtures" = Ok (JArr []) ∧
  @get_league_scores sample_world None 6 sample_writer false false sample_ctx =
    (Ok tt, {| headers := headers sample_ctx; sent := 1 |},
     [Request (BASE_URL +:+ "fixtures?timeFrame=p6") (headers sample_ctx);
      Render sample_writer (league_scores (JObj [("fixtures", JArr [])]) 6 false false)]).
Proof.
  split.
  - reflexivity.
  - apply (@global_fixtures_empty sample_world _ 0 sample_writer 6 false false
             (JObj [("fixtures", JArr [])])); reflexivity.
Defined.

(** ** Standings for a matchday *)

Section Matchday.
Context `{W : World}.
#[local] Arguments _get : simpl never.
#[local] Arguments String.append : simpl never.
#[local] Arguments str_int : simpl never.

Variables (league h : string) (n : nat) (writer : Writer) (extended : bool).
Variables (league_id current : Z) (competition : json).

(** The league is one of [LEAGUE_IDS], and the competition lookup succeeds and
    reports [current] as the current matchday. *)
Hypothesis league_known : LEAGUE_IDS !! league = Some league_id.
Hypothesis competition_found :
  remote n (BASE_URL +:+ "competitions/" +:+ str_int league_id) =
    {| status_code := 200; body := Some competition |}.
Hypothesis current_matchday : getitem competition "currentMatchday" = Ok (JNum current).

(** C4.  A requested matchday beyond the current one makes the handler print
    the current matchday and stop after the competition lookup, its only
    request; a requested matchday up to the current one makes the handler send
    the league-table request for that matchday next. *)
Theorem matchday_guard (matchday : Z) :
  (current < matchday →
     get_matchday_standings league writer extended matchday
         {| headers := Some h; sent := n |} =
       (Ok tt, {| headers := Some h; sent := S n |},
        [Request (BASE_URL +:+ "competitions/" +:+ str_int league_id) (Some h);
         Secho ("The current matchday for this league is " +:+ str_int current
                  +:+ ", introduce a value that is less than or equal to it.") true])) ∧
  (matchday ≤ current →
     ∃ rest,
       trace (get_matchday_standings league writer extended matchday
                {| headers := Some h; sent := n |}) =
         Request (BASE_URL +:+ "competitions/" +:+ str_int league_id) (Some h)
         :: Request (BASE_URL +:+ "competitions/" +:+ str_int league_id
                       +:+ "/leagueTable/?matchday=" +:+ str_int matchday) (Some h)
         :: rest).
Proof.
  split.
  - intros Hlt. apply Z.ltb_lt in Hlt.
    unfold get_matchday_standings, dict_getitem, try_except_api, mbind, M_bind.
    rewrite league_known. cbn. rewrite _get_run, competition_found. cbn.
    rewrite current_matchday. cbn. rewrite Hlt. reflexivity.
  - intros Hle. apply Z.ltb_ge in Hle.
    unfold get_matchday_standings, dict_getitem.
    rewrite league_known, trace_lift_bind.
    match goal with
    | |- context [try_except_api ?body ?handler ?c] =>
        destruct (trace_try_except_api body handler c) as [rest Hrest]; rewrite Hrest
    end.
    rewrite trace_get_bind, competition_found. cbn [by_status status_code Z.eqb Pos.eqb].
    cbn [json_of body]. rewrite trace_lift_bind, current_matchday, trace_lift_bind.
    cbn [lt_int]. rewrite Hle, trace_lift_bind, trace_get_bind.
    eexists. reflexivity.
Qed.

End Matchday.

(** Competition 398 is at matchday 10: matchday 11 is refused, matchday 3 is fetched. *)
Lemma matchday_guard_witness :
  @get_matchday_standings sample_world "EPL" sample_writer false 11 sample_ctx =
    (Ok tt, {| headers := headers sample_ctx; sent := 1 |},
     [Request (BASE_URL +:+ "competitions/" +:+ str_int 398) (headers sample_ctx);
      Secho ("The current matchday for this league is " +:+ str_int 10
               +:+ ", introduce a value that is less than or equal to it.") true]) ∧
  ∃ rest,
    trace (@get_matchday_standings sample_world "EPL" sample_writer false 3 sample_ctx) =
      Request (BASE_URL +:+ "competitions/" +:+ str_int 398) (headers sample_ctx)
      :: Request (BASE_URL +:+ "competitions/" +:+ str_int 398
                    +:+ "/leagueTable/?matchday=" +:+ str_int 3) (headers sample_ctx)
      :: rest.
Proof.
  split.
  - apply (@matchday_guard sample_world "EPL" _ 0 sample_writer false 398 10
             (JObj [("currentMatchday", JNum 10)])); [reflexivity.. | lia].
  - apply (@matchday_guard sample_world "EPL" _ 0 sample_writer false 398 10
             (JObj [("currentMatchday", JNum 10)])); [reflexivity.. | lia].
Defined.

(** ** The live handlers *)

Section LiveGames.
Context `{W : World}.

Lemma assoc_set_same (key : string) (v : json) (fields : list (string * json)) :
  assoc key (assoc_set key v fields) = Some v.
Proof.
  induction fields as [|[k x] fields IH]; cbn.
  - rewrite String.eqb_refl. reflexivity.
  - destruct (String.eqb k key) eqn:E; cbn; rewrite E; [reflexivity | exact IH].
Qed.

Lemma assoc_set_other (key k' : string) (v : json) (fields : list (string * json)) :
  k' ≠ key → assoc k' (assoc_set key v fields) = assoc k' fields.
Proof.
  intros Hne. induction fields as [|[k x] fields IH]; cbn.
  - destruct (String.eqb_spec key k') as [->|_]; [contradiction | reflexivity].
  - destruct (String.eqb_spec k key) as [->|Hk]; cbn.
    + destruct (String.eqb_spec key k') as [->|_]; [contradiction | reflexivity].
    + rewrite IH. reflexivity.
Qed.

Lemma assoc_set_length (key : string) (v x : json) (fields : list (string * json)) :
  assoc key fields = Some x → length (assoc_set key v fields) = length fields.
Proof.
  induction fields as [|[k y] fields IH]; cbn; [discriminate|].
  destruct (String.eqb k key); cbn; [reflexivity|].
  intros H. rewrite IH by exact H. reflexivity.
Qed.

(** Re-labelling sets the league tag and nothing else. *)
Lemma league_of_with_league (code : string) (game : json) :
  is_live_game game = true → league_of (with_league code game) = Some code.
Proof.
  unfold is_live_game, league_of, with_league. destruct game; try discriminate.
  intros _. rewrite assoc_set_same. reflexivity.
Qed.

Lemma getitem_with_league (code key : string) (game : json) :
  key ≠ "league" → getitem (with_league code game) key = getitem game key.
Proof.
  intros Hne. destruct game; try reflexivity. cbn.
  rewrite assoc_set_other by exact Hne. reflexivity.
Qed.

Lemma with_league_relabelled (code : string) (game : json) :
  is_live_game game = true → relabelled code game (with_league code game).
Proof.
  unfold is_live_game, league_of, relabelled, with_league.
  destruct game as [| | | | |gfields]; try discriminate.
  destruct (assoc "league" gfields) as [tag|] eqn:Htag; [|discriminate]. intros _.
  cbn [getitem len]. rewrite assoc_set_same. split; [reflexivity|]. split.
  - intros key Hkey. rewrite assoc_set_other by exact Hkey. reflexivity.
  - rewrite (assoc_set_length _ _ _ _ Htag). reflexivity.
Qed.

Lemma Forall2_map_of {A B : Type} (R : A → B → Prop) (f : A → B) (l : list A) :
  Forall (λ x, R x (f x)) l → Forall2 R l (map f l).
Proof. induction 1; cbn; constructor; assumption. Qed.

(** The body of the loop of [get_live_scores] on a live game. *)
Lemma relabel_game_live (game : json) (name : string) :
  league_of game = Some name →
  relabel_game game =
    Ok (match LEAGUE_KEYS !! name with
        | Some code => with_league code game
        | None => game
        end).
Proof.
  unfold league_of, relabel_game. destruct game as [| | | | |fields]; try discriminate.
  cbn. destruct (assoc "league" fields) as [[| | |l| |]|]; try discriminate.
  intros [= ->]. cbn. destruct (LEAGUE_KEYS !! name); reflexivity.
Qed.

(** The loop of [get_live_scores] visits every game and drops none. *)
Lemma for_each_relabel (games : list json) :
  forallb is_live_game games = true →
  ∃ games',
    for_each relabel_game games = Ok games' ∧
    length games' = length games ∧
    ∀ (i : nat) (game : json) (name : string),
      games !! i = Some game → league_of game = Some name →
      games' !! i = Some (match LEAGUE_KEYS !! name with
                          | Some code => with_league code game
                          | None => game
                          end).
Proof.
  induction games as [|game games IH]; cbn [forallb for_each].
  - intros _. exists []. repeat split. intros i game name Hi. discriminate.
  - intros Hall. apply andb_prop in Hall as [Hgame Hall].
    destruct (IH Hall) as (games' & Hrun & Hlen & Hrel).
    unfold is_live_game in Hgame. destruct (league_of game) as [name|] eqn:Hname;
      [|discriminate].
    eexists (_ :: games'). split; [|split].
    + rewrite (relabel_game_live _ _ Hname). cbn. rewrite Hrun. reflexivity.
    + cbn. rewrite Hlen. reflexivity.
    + intros [|i] g l Hi Hl; cbn in Hi |- *.
      * injection Hi as <-. rewrite Hname in Hl. injection Hl as <-. reflexivity.
      * eapply Hrel; eassumption.
Qed.

(** The loop of [get_live_league] keeps the games tagged with the league's
    live-service name, in their order, each re-labelled. *)
Lemma keep_league_live (league name : string) (games : list json) :
  LEAGUE_NAMES !! league = Some name →
  forallb is_live_game games = true →
  keep_league league games = Ok (map (with_league league) (List.filter (tagged name) games)).
Proof.
  intros Hname. induction games as [|game games IH]; cbn [forallb keep_league List.filter map].
  - reflexivity.
  - intros Hall. apply andb_prop in Hall as [Hgame Hall]. specialize (IH Hall).
    unfold is_live_game in Hgame. unfold tagged at 1. unfold dict_getitem. rewrite Hname.
    unfold league_of in *. destruct game as [| | | | |fields]; try discriminate.
    cbn. destruct (assoc "league" fields) as [[| | |l| |]|]; try discriminate.
    cbn. destruct (String.eqb l name); cbn; rewrite IH; reflexivity.
Qed.

End LiveGames.

Section LiveRounds.
Context `{W : World}.
#[local] Arguments String.append : simpl never.
#[local] Arguments str_int : simpl never.

Variables (hd : option string) (n : nat) (writer : Writer) (use_12_hour_format : bool).
Variables (fields : list (string * json)) (games : list json).

(** The live service answers the [n]-th request with a non-empty list of live
    games. *)
Hypothesis live_answer :
  remote n LIVE_URL = {| status_code := 200; body := Some (JObj fields) |}.
Hypothesis answer_games : assoc "games" fields = Some (JArr games).
Hypothesis some_games : games ≠ [].
Hypothesis games_live : forallb is_live_game games = true.

Lemma length_nonzero {A : Type} (l : list A) : l ≠ [] → (Z.of_nat (length l) =? 0) = false.
Proof. destruct l; [contradiction | reflexivity]. Qed.

(** One round of [get_live_scores]: the request, the call of the writer, and
    then either the notice, the pause and the next round, or the end. *)
Lemma live_scores_round (fuel : nat) (refresh : Z) (games' : list json) :
  for_each relabel_game games = Ok games' →
  get_live_scores (S fuel) writer use_12_hour_format refresh {| headers := hd; sent := n |} =
    if 0 <? refresh then
      prefixed
        ([Request LIVE_URL None;
          Render writer (live_scores (JObj (assoc_set "games" (JArr games') fields))
                           use_12_hour_format)] ++ refresh_notice refresh)
        (get_live_scores fuel writer use_12_hour_format refresh
           {| headers := hd; sent := S n |})
    else
      (Ok tt, {| headers := hd; sent := S n |},
       [Request LIVE_URL None;
        Render writer (live_scores (JObj (assoc_set "games" (JArr games') fields))
                         use_12_hour_format)]).
Proof.
  intros Hloop. cbn [get_live_scores]. unfold mbind, M_bind, requests_get, lift.
  cbn [sent headers]. rewrite live_answer.
  cbn -[for_each length Z.of_nat Z.ltb get_live_scores]. rewrite answer_games.
  cbn -[for_each length Z.of_nat Z.ltb get_live_scores].
  rewrite (length_nonzero _ some_games), Hloop.
  cbn -[for_each length Z.of_nat Z.ltb get_live_scores].
  destruct (0 <? refresh); reflexivity.
Qed.

(** One round of [get_live_league] when some game is kept. *)
Lemma live_league_round (fuel : nat) (refresh : Z) (league : string) (kept : list json) :
  keep_league league games = Ok kept →
  kept ≠ [] →
  get_live_league (S fuel) writer use_12_hour_format league refresh
      {| headers := hd; sent := n |} =
    if 0 <? refresh then
      prefixed
        ([Request LIVE_LEAGUES_URL None;
          Render writer (live_scores (JObj [("games", JArr kept)]) use_12_hour_format)]
           ++ refresh_notice refresh)
        (get_live_league fuel writer use_12_hour_format league refresh
           {| headers := hd; sent := S n |})
    else
      (Ok tt, {| headers := hd; sent := S n |},
       [Request LIVE_LEAGUES_URL None;
        Render writer (live_scores (JObj [("games", JArr kept)]) use_12_hour_format)]).
Proof.
  intros Hloop Hkept. cbn [get_live_league]. unfold mbind, M_bind, requests_get, lift.
  cbn [sent headers]. change LIVE_LEAGUES_URL with LIVE_URL. rewrite live_answer.
  cbn -[keep_league length Z.of_nat Z.ltb get_live_league]. rewrite answer_games.
  cbn -[keep_league length Z.of_nat Z.ltb get_live_league].
  rewrite (length_nonzero _ some_games), Hloop.
  cbn -[keep_league length Z.of_nat Z.ltb get_live_league].
  rewrite (length_nonzero _ Hkept).
  destruct (0 <? refresh); reflexivity.
Qed.

(** The round of [get_live_league] when no game is kept. *)
Lemma live_league_nothing (fuel : nat) (refresh : Z) (league : string) :
  keep_league league games = Ok [] →
  get_live_league (S fuel) writer use_12_hour_format league refresh
      {| headers := hd; sent := n |} =
    (Ok tt, {| headers := hd; sent := S n |},
     [Request LIVE_LEAGUES_URL None;
      Secho ("No live action currently for " +:+ league +:+ ".") true]).
Proof.
  intros Hloop. cbn [get_live_league]. unfold mbind, M_bind, requests_get, lift.
  cbn [sent headers]. change LIVE_LEAGUES_URL with LIVE_URL. rewrite live_answer.
  cbn -[keep_league length Z.of_nat Z.ltb get_live_league]. rewrite answer_games.
  cbn -[keep_league length Z.of_nat Z.ltb get_live_league].
  rewrite (length_nonzero _ some_games), Hloop. reflexivity.
Qed.

(** Both handlers begin every round with their request. *)
Lemma live_scores_begins (fuel : nat) (refresh : Z) (c : ctx) :
  ∃ rest,
    trace (get_live_scores (S fuel) writer use_12_hour_format refresh c) =
      Request LIVE_URL None :: rest.
Proof.
  cbn [get_live_scores]. rewrite trace_bind. eexists. reflexivity.
Qed.

Lemma live_league_begins (fuel : nat) (refresh : Z) (league : string) (c : ctx) :
  ∃ rest,
    trace (get_live_league (S fuel) writer use_12_hour_format league refresh c) =
      Request LIVE_LEAGUES_URL None :: rest.
Proof.
  cbn [get_live_league]. rewrite trace_bind. eexists. reflexivity.
Qed.

(** What the loop of [get_live_scores] gives for the games of the answer: as
    many games, in the same order, each one re-labelled or left as it is. *)
Lemma for_each_relabel_games (games' : list json) :
  for_each relabel_game games = Ok games' →
  Forall2 (λ game game',
             ∃ name, league_of game = Some name ∧
                     match LEAGUE_KEYS !! name with
                     | Some code => relabelled code game game'
                     | None => game' = game
                     end)
    games games'.
Proof.
  clear answer_games some_games. revert games' games_live.
  induction games as [|game rest IH]; intros games' Hlive Hloop; cbn in Hloop.
  - injection Hloop as <-. constructor.
  - cbn [forallb] in Hlive. apply andb_prop in Hlive as [Hgame Hlive].
    pose proof Hgame as Hgame'. unfold is_live_game in Hgame'.
    destruct (league_of game) as [name|] eqn:Hname; [|discriminate].
    rewrite (relabel_game_live _ _ Hname) in Hloop. cbn in Hloop.
    destruct (for_each relabel_game rest) as [rest'| |] eqn:Hrest; try discriminate.
    cbn in Hloop. injection Hloop as <-. constructor; [|apply IH; auto].
    exists name. split; [exact Hname|].
    destruct (LEAGUE_KEYS !! name) as [code|]; [|reflexivity].
    apply with_league_relabelled. exact Hgame.
Qed.

(** C10.  Given a non-empty list of live games, [get_live_scores] passes the
    answer to the writer with every game in it, in the received order: what
    the writer reads under ["games"] has a game for each received game, and
    every other key of the answer reads as received.  A game whose league is a
    key of [LEAGUE_KEYS] reads the user-facing code under ["league"] and is
    otherwise as received; a game whose league is no such key is the received
    game, with its raw league name. *)
Theorem live_scores_forwards_every_game (fuel : nat) (refresh : Z) :
  ∃ shown games' rest,
    trace (get_live_scores (S fuel) writer use_12_hour_format refresh
             {| headers := hd; sent := n |}) =
      Request LIVE_URL None
      :: Render writer (live_scores shown use_12_hour_format)
      :: rest ∧
    getitem shown "games" = Ok (JArr games') ∧
    (∀ key, key ≠ "games" → getitem shown key = getitem (JObj fields) key) ∧
    Forall2 (λ game game',
               ∃ name, league_of game = Some name ∧
                       match LEAGUE_KEYS !! name with
                       | Some code => relabelled code game game'
                       | None => game' = game
                       end)
      games games'.
Proof.
  destruct (for_each_relabel games games_live) as (games' & Hloop & _).
  exists (JObj (assoc_set "games" (JArr games') fields)), games'.
  rewrite (live_scores_round fuel refresh games' Hloop).
  assert (Hshown :
    getitem (JObj (assoc_set "games" (JArr games') fields)) "games" = Ok (JArr games') ∧
    ∀ key, key ≠ "games" →
      getitem (JObj (assoc_set "games" (JArr games') fields)) key =
        getitem (JObj fields) key).
  { cbn [getitem]. rewrite assoc_set_same. split; [reflexivity|].
    intros key Hkey. rewrite assoc_set_other by exact Hkey. reflexivity. }
  destruct Hshown as [Hgames Hothers].
  destruct (0 <? refresh).
  - eexists. split; [rewrite trace_prefixed; reflexivity|].
    split; [exact Hgames | split; [exact Hothers | exact (for_each_relabel_games _ Hloop)]].
  - exists []. split; [reflexivity|].
    split; [exact Hgames | split; [exact Hothers | exact (for_each_relabel_games _ Hloop)]].
Qed.

(** C5.  Given a non-empty list of live games and a league with a live-service
    name, [get_live_league] keeps the games tagged with that name.  If none is
    kept it prints that there is no live action for the league and does not
    call the writer.  Otherwise the writer receives a list with one game for
    each kept game, in their order and no other: each reads the requested
    league code under ["league"] and is otherwise the game received. *)
Theorem live_league_filter (fuel : nat) (refresh : Z) (league name : string) :
  LEAGUE_NAMES !! league = Some name →
  (List.filter (tagged name) games = [] →
     get_live_league (S fuel) writer use_12_hour_format league refresh
         {| headers := hd; sent := n |} =
       (Ok tt, {| headers := hd; sent := S n |},
        [Request LIVE_LEAGUES_URL None;
         Secho ("No live action currently for " +:+ league +:+ ".") true])) ∧
  (List.filter (tagged name) games ≠ [] →
     ∃ kept rest,
       trace (get_live_league (S fuel) writer use_12_hour_format league refresh
                {| headers := hd; sent := n |}) =
         Request LIVE_LEAGUES_URL None
         :: Render writer (live_scores (JObj [("games", JArr kept)]) use_12_hour_format)
         :: rest ∧
       Forall2 (relabelled league) (List.filter (tagged name) games) kept).
Proof.
  intros Hname. pose proof (keep_league_live league name games Hname games_live) as Hloop.
  split.
  - intros Hnone. rewrite Hnone in Hloop. apply live_league_nothing. exact Hloop.
  - intros Hsome.
    exists (map (with_league league) (List.filter (tagged name) games)).
    assert (Hkept : Forall2 (relabelled league) (List.filter (tagged name) games)
                      (map (with_league league) (List.filter (tagged name) games))).
    { apply Forall2_map_of. apply List.Forall_forall. intros game Hgame.
      apply with_league_relabelled. apply List.filter_In in Hgame as [Hin _].
      exact (proj1 (List.forallb_forall _ _) games_live game Hin). }
    rewrite (live_league_round fuel refresh league _ Hloop).
    + destruct (0 <? refresh).
      * rewrite trace_prefixed. eexists. split; [reflexivity | exact Hkept].
      * exists []. split; [reflexivity | exact Hkept].
    + destruct (List.filter (tagged name) games); [contradiction | discriminate].
Qed.

(** C6.  After a round that called the writer: with a positive interval the
    handler prints the notice, sleeps for exactly the interval and sends the
    next request; with an interval of zero or less the run ends there, after
    one request and one call of the writer.  This holds for [get_live_scores]
    and, for a league of which some game is kept, for [get_live_league]. *)
Theorem refresh_interval (fuel : nat) (refresh : Z) :
  (0 < refresh →
     (∃ shown rest,
        trace (get_live_scores (S (S fuel)) writer use_12_hour_format refresh
                 {| headers := hd; sent := n |}) =
          [Request LIVE_URL None; Render writer shown] ++ refresh_notice refresh
            ++ Request LIVE_URL None :: rest) ∧
     (∀ league name,
        LEAGUE_NAMES !! league = Some name →
        List.filter (tagged name) games ≠ [] →
        ∃ shown rest,
          trace (get_live_league (S (S fuel)) writer use_12_hour_format league refresh
                   {| headers := hd; sent := n |}) =
            [Request LIVE_LEAGUES_URL None; Render writer shown] ++ refresh_notice refresh
              ++ Request LIVE_LEAGUES_URL None :: rest)) ∧
  (refresh ≤ 0 →
     (∃ shown,
        get_live_scores (S fuel) writer use_12_hour_format refresh
            {| headers := hd; sent := n |} =
          (Ok tt, {| headers := hd; sent := S n |},
           [Request LIVE_URL None; Render writer shown])) ∧
     (∀ league name,
        LEAGUE_NAMES !! league = Some name →
        List.filter (tagged name) games ≠ [] →
        ∃ shown,
          get_live_league (S fuel) writer use_12_hour_format league refresh
              {| headers := hd; sent := n |} =
            (Ok tt, {| headers := hd; sent := S n |},
             [Request LIVE_LEAGUES_URL None; Render writer shown]))).
Proof.
  destruct (for_each_relabel games games_live) as (games' & Hscores & _).
  assert (Hkept : ∀ league name,
            List.filter (tagged name) games ≠ [] →
            map (with_league league) (List.filter (tagged name) games) ≠ []).
  { intros league name Hsome.
    destruct (List.filter (tagged name) games); [contradiction | discriminate]. }
  split.
  - intros Hpos. apply Z.ltb_lt in Hpos. split.
    + rewrite (live_scores_round (S fuel) refresh games' Hscores), Hpos.
      destruct (live_scores_begins fuel refresh {| headers := hd; sent := S n |})
        as [rest Hrest].
      eexists _, rest. rewrite trace_prefixed, Hrest, <- app_assoc. reflexivity.
    + intros league name Hname Hsome.
      pose proof (keep_league_live league name games Hname games_live) as Hleague.
      rewrite (live_league_round (S fuel) refresh league _ Hleague (Hkept _ _ Hsome)), Hpos.
      destruct (live_league_begins fuel refresh league {| headers := hd; sent := S n |})
        as [rest Hrest].
      eexists _, rest. rewrite trace_prefixed, Hrest, <- app_assoc. reflexivity.
  - intros Hneg. apply Z.ltb_ge in Hneg. split.
    + rewrite (live_scores_round fuel refresh games' Hscores), Hneg.
      eexists. reflexivity.
    + intros league name Hname Hsome.
      pose proof (keep_league_live league name games Hname games_live) as Hleague.
      rewrite (live_league_round fuel refresh league _ Hleague (Hkept _ _ Hsome)), Hneg.
      eexists. reflexivity.
Qed.

(** Without a live-service name for the league the loop of [get_live_league]
    stops at its first game with a [KeyError]. *)
Lemma live_league_without_name (fuel : nat) (refresh : Z) (league : string) :
  LEAGUE_NAMES !! league = None →
  get_live_league (S fuel) writer use_12_hour_format league refresh
      {| headers := hd; sent := n |} =
    (Raised (KeyError league), {| headers := hd; sent := S n |},
     [Request LIVE_LEAGUES_URL None]).
Proof.
  intros Hname. cbn [get_live_league]. unfold mbind, M_bind, requests_get, lift.
  cbn [sent headers]. change LIVE_LEAGUES_URL with LIVE_URL. rewrite live_answer.
  cbn -[keep_league length Z.of_nat Z.ltb get_live_league]. rewrite answer_games.
  cbn -[keep_league length Z.of_nat Z.ltb get_live_league].
  rewrite (length_nonzero _ some_games).
  destruct games as [|game rest]; [contradiction|].
  cbn [forallb] in games_live. apply andb_prop in games_live as [Hgame _].
  unfold is_live_game, league_of in Hgame.
  destruct game as [| | | | |gfields]; try discriminate.
  cbn [keep_league]. unfold dict_getitem. rewrite Hname. cbn.
  destruct (assoc "league" gfields); [reflexivity | discriminate].
Qed.

End LiveRounds.

(** ** The dispatch of [main] *)

Section Dispatch.
Context `{W : World}.
#[local] Arguments _get : simpl never.
#[local] Arguments String.append : simpl never.
#[local] Arguments str_int : simpl never.

(** An exception other than [IncorrectParametersException] passes through the
    [except] clause of [main], and so does a normal return. *)
Lemma try_except_params_pass {A : Type} (body : M A) (handler : string → M A) (c : ctx) :
  (∀ message, outcome (body c) ≠ Raised (IncorrectParametersException message)) →
  try_except_params body handler c = body c.
Proof.
  unfold try_except_params, outcome. destruct (body c) as [[[a|e|] c1] t1]; cbn;
    try reflexivity.
  destruct e; try reflexivity. intros Hne. destruct (Hne message). reflexivity.
Qed.

(** [get_standings] raises no [IncorrectParametersException]. *)
Lemma get_standings_not_params (league h : string) (n : nat) (writer : Writer)
    (extended : bool) (message : string) :
  outcome (get_standings league writer extended {| headers := Some h; sent := n |}) ≠
    Raised (IncorrectParametersException message).
Proof.
  unfold get_standings, dict_getitem, try_except_api, mbind, M_bind, lift.
  destruct (LEAGUE_IDS !! league) as [league_id|]; cbn; [|discriminate].
  rewrite _get_run.
  pose proof (by_status_not_params
                (remote n (BASE_URL +:+ "competitions/" +:+ str_int league_id
                             +:+ "/leagueTable"))) as Hstatus.
  destruct (by_status _) as [req|e|]; cbn.
  - unfold json_of. destruct (body req); cbn; [|discriminate].
    destruct extended; cbn; discriminate.
  - destruct e; cbn; try discriminate. destruct (Hstatus message0). reflexivity.
  - discriminate.
Qed.

(** What [main] makes of an [IncorrectParametersException] of its [try] block:
    the clause of line 431 catches it, and the lookup of [e.message] in line
    432 raises [AttributeError] before anything is printed. *)
Lemma main_params_report (fuel : nat) (a : Cli.t) (c c1 : ctx) (message : string)
    (t : list event) :
  main_try fuel a {| headers := Some (Cli.apikey a); sent := sent c |} =
    (Raised (IncorrectParametersException message), c1, t) →
  main fuel a c = (Raised (AttributeError "message"), c1, t).
Proof.
  intros Htry. unfold main. unfold mbind at 1. unfold M_bind at 1. unfold set_headers at 1.
  rewrite prefixed_nil. unfold try_except_params. rewrite Htry.
  unfold exception_message, raise, mbind, M_bind, prefixed. cbn.
  rewrite app_nil_r. reflexivity.
Qed.



(** The test of line 386 is Python's truth test: an empty string given with
    [-o] counts as no output file, and the writer is built. *)
Lemma stdout_with_empty_path (fuel : nat) (a : Cli.t) (c : ctx) :
  Cli.output_file a = Some "" →
  ∃ rest,
    trace (main_try fuel a c) =
      MakeWriter {| writer_format := Cli.output_format a; writer_file := Some "" |} :: rest.
Proof.
  intros Hfile. unfold main_try. rewrite Hfile. cbn [truthy_str String.eqb negb].
  rewrite andb_false_r, trace_bind. unfold get_writer at 1.
  rewrite trace_bind. eexists. reflexivity.
Qed.

(** C9.  A standings request for a league with a matchday of zero or less (the
    default -1 included) runs [get_standings] for that league, right after the
    writer is built: [main] does what [get_standings] does, the matchday is
    neither refused nor passed to [get_matchday_standings]. *)
Theorem matchday_not_positive_plain_standings (fuel : nat) (a : Cli.t) (c : ctx)
    (league : string) :
  Cli.listcodes a = false → Cli.listleagues a = false →
  Cli.live a = false → Cli.standings a = true →
  String.eqb (Cli.output_format a) "stdout" && truthy_str (Cli.output_file a) = false →
  Cli.league a = Some league → league ≠ "" →
  Cli.matchday a ≤ 0 →
  main fuel a c =
    prefixed
      [MakeWriter {| writer_format := Cli.output_format a;
                     writer_file := Cli.output_file a |}]
      (get_standings league
         {| writer_format := Cli.output_format a; writer_file := Cli.output_file a |}
         (Cli.extended a)
         {| headers := Some (Cli.apikey a); sent := sent c |}).
Proof.
  intros Hcodes Hleagues Hlive Hstandings Hout Hleague Hne Hday.
  apply Z.ltb_ge in Hday. apply String.eqb_neq in Hne.
  unfold main. unfold mbind at 1. unfold M_bind at 1. unfold set_headers at 1.
  rewrite prefixed_nil.
  assert (Htry : main_try fuel a {| headers := Some (Cli.apikey a); sent := sent c |} =
    prefixed
      [MakeWriter {| writer_format := Cli.output_format a;
                     writer_file := Cli.output_file a |}]
      (get_standings league
         {| writer_format := Cli.output_format a; writer_file := Cli.output_file a |}
         (Cli.extended a)
         {| headers := Some (Cli.apikey a); sent := sent c |})).
  { unfold main_try, get_writer.
    rewrite Hout, Hcodes, Hleagues, Hlive, Hstandings, Hleague, Hday.
    unfold truthy_str. rewrite Hne. reflexivity. }
  rewrite try_except_params_pass; [exact Htry|].
  intros message. rewrite Htry. apply get_standings_not_params.
Qed.

End Dispatch.

(** ** The theorems at work in the sample world *)

(** The three games of the sample live service all reach the writer: the one
    of the Premier League as [EPL], the one of the Bundesliga as [BL], the
    Icelandic one, whose league has no code, as it came. *)
Lemma live_scores_forwards_every_game_witness :
  (∃ shown games' rest,
     trace (@get_live_scores sample_world 1 sample_writer false (-1) sample_ctx) =
       Request LIVE_URL None
       :: Render sample_writer (live_scores shown false)
       :: rest ∧
     getitem shown "games" = Ok (JArr games') ∧
     (∀ key, key ≠ "games" → getitem shown key = getitem (JObj sample_live_fields) key) ∧
     Forall2 (λ game game',
                ∃ name, league_of game = Some name ∧
                        match @LEAGUE_KEYS sample_world !! name with
                        | Some code => relabelled code game game'
                        | None => game' = game
                        end)
       sample_games games') ∧
  @get_live_scores sample_world 1 sample_writer false (-1) sample_ctx =
    (Ok tt, {| headers := headers sample_ctx; sent := 1 |},
     [Request LIVE_URL None;
      Render sample_writer
        (live_scores
           (JObj [("games",
                   JArr [JObj [("league", JStr "EPL");
                               ("homeTeamName", JStr "Arsenal FC");
                               ("awayTeamName", JStr "Manchester United FC");
                               ("goalsHomeTeam", JNum 1); ("goalsAwayTeam", JNum 0)];
                         JObj [("league", JStr "BL");
                               ("homeTeamName", JStr "FC Bayern Muenchen");
                               ("awayTeamName", JStr "Hamburger SV");
                               ("goalsHomeTeam", JNum 1); ("goalsAwayTeam", JNum 0)];
                         JObj [("league", JStr "Iceland - Urvalsdeild");
                               ("homeTeamName", JStr "KR Reykjavik");
                               ("awayTeamName", JStr "Valur");
                               ("goalsHomeTeam", JNum 1); ("goalsAwayTeam", JNum 0)]]);
                  ("count", JNum 3)])
           false)]).
Proof.
  split; [|reflexivity].
  apply (@live_scores_forwards_every_game sample_world (headers sample_ctx) 0
           sample_writer false sample_live_fields sample_games);
    [reflexivity | reflexivity | discriminate | reflexivity].
Defined.

(** No game of Serie A is live in the sample world; one of the Premier League
    is, and it reaches the writer alone, as a game of [EPL]. *)
Lemma live_league_filter_witness :
  @get_live_league sample_world 1 sample_writer false "SA" 5 sample_ctx =
    (Ok tt, {| headers := headers sample_ctx; sent := 1 |},
     [Request LIVE_LEAGUES_URL None; Secho "No live action currently for SA." true]) ∧
  (∃ kept rest,
     trace (@get_live_league sample_world 1 sample_writer false "EPL" 5 sample_ctx) =
       Request LIVE_LEAGUES_URL None
       :: Render sample_writer (live_scores (JObj [("games", JArr kept)]) false)
       :: rest ∧
     Forall2 (relabelled "EPL")
       (List.filter (tagged "England - Premier League") sample_games) kept) ∧
  ∃ rest,
    trace (@get_live_league sample_world 1 sample_writer false "EPL" 5 sample_ctx) =
      Request LIVE_LEAGUES_URL None
      :: Render sample_writer
           (live_scores
              (JObj [("games",
                      JArr [JObj [("league", JStr "EPL");
                                  ("homeTeamName", JStr "Arsenal FC");
                                  ("awayTeamName", JStr "Manchester United FC");
                                  ("goalsHomeTeam", JNum 1); ("goalsAwayTeam", JNum 0)]])])
              false)
      :: rest.
Proof.
  split; [|split].
  - apply (@live_league_filter sample_world (headers sample_ctx) 0 sample_writer false
             sample_live_fields sample_games eq_refl eq_refl ltac:(discriminate) eq_refl
             0 5 "SA" "Italy - Serie A" eq_refl).
    reflexivity.
  - apply (@live_league_filter sample_world (headers sample_ctx) 0 sample_writer false
             sample_live_fields sample_games eq_refl eq_refl ltac:(discriminate) eq_refl
             0 5 "EPL" "England - Premier League" eq_refl).
    discriminate.
  - eexists. reflexivity.
Defined.

(** An interval of 5 seconds polls again, intervals of -1 and 0 do not. *)
Lemma refresh_interval_witness :
  (∃ shown rest,
     trace (@get_live_scores sample_world 2 sample_writer false 5 sample_ctx) =
       [Request LIVE_URL None; Render sample_writer shown] ++ refresh_notice 5
         ++ Request LIVE_URL None :: rest) ∧
  (∃ shown rest,
     trace (@get_live_league sample_world 2 sample_writer false "EPL" 5 sample_ctx) =
       [Request LIVE_LEAGUES_URL None; Render sample_writer shown] ++ refresh_notice 5
         ++ Request LIVE_LEAGUES_URL None :: rest) ∧
  (∃ shown,
     @get_live_scores sample_world 1 sample_writer false (-1) sample_ctx =
       (Ok tt, {| headers := headers sample_ctx; sent := 1 |},
        [Request LIVE_URL None; Render sample_writer shown])) ∧
  (∃ shown,
     @get_live_league sample_world 1 sample_writer false "EPL" 0 sample_ctx =
       (Ok tt, {| headers := headers sample_ctx; sent := 1 |},
        [Request LIVE_LEAGUES_URL None; Render sample_writer shown])).
Proof.
  pose proof (λ fuel refresh,
    @refresh_interval sample_world (headers sample_ctx) 0 sample_writer false
      sample_live_fields sample_games eq_refl eq_refl ltac:(discriminate) eq_refl
      fuel refresh) as H.
  split; [|split; [|split]].
  - exact (proj1 (proj1 (H 0%nat 5) eq_refl)).
  - exact (proj2 (proj1 (H 0%nat 5) eq_refl) "EPL" "England - Premier League" eq_refl
             ltac:(discriminate)).
  - exact (proj1 (proj2 (H 0%nat (-1)) ltac:(discriminate))).
  - exact (proj2 (proj2 (H 0%nat 0) ltac:(discriminate)) "EPL" "England - Premier League"
             eq_refl ltac:(discriminate)).
Defined.



(** [--standings --league=EPL] with the default matchday shows the current table. *)
Lemma matchday_not_positive_plain_standings_witness :
  Cli.matchday cli_standings ≤ 0 ∧
  @main sample_world 1 cli_standings fresh_ctx =
    prefixed
      [MakeWriter sample_writer]
      (@get_standings sample_world "EPL" sample_writer false sample_ctx).
Proof.
  split; [discriminate|].
  apply (@matchday_not_positive_plain_standings sample_world 1 cli_standings fresh_ctx "EPL");
    [reflexivity | reflexivity | reflexivity | reflexivity | reflexivity | reflexivity
    | discriminate | discriminate].
Defined.

(** ** Every path of a computation *)

Section Ensures.
Context `{W : World}.

Lemma ensures_bind {A B : Type} (m : M A) (f : A → M B) (c : ctx)
    (Q : result B → ctx → list event → Prop) :
  ensures m c (λ r c1 t1,
    match r with
    | Ok a => ensures (f a) c1 (λ r2 c2 t2, Q r2 c2 (t1 ++ t2))
    | Raised e => Q (Raised e) c1 t1
    | OutOfFuel => Q OutOfFuel c1 t1
    end) →
  ensures (m ≫= f) c Q.
Proof.
  unfold ensures, mbind, M_bind, outcome, final, trace.
  destruct (m c) as [[[a|e|] c1] t1]; cbn; [|tauto..].
  destruct (f a c1) as [[r2 c2] t2]. cbn. tauto.
Qed.

Lemma ensures_try_except_api {A : Type} (body : M A) (handler : string → M A) (c : ctx)
    (Q : result A → ctx → list event → Prop) :
  ensures body c (λ r c1 t1,
    match r with
    | Raised (APIErrorException message) =>
        ensures (handler message) c1 (λ r2 c2 t2, Q r2 c2 (t1 ++ t2))
    | _ => Q r c1 t1
    end) →
  ensures (try_except_api body handler) c Q.
Proof.
  unfold ensures, try_except_api, outcome, final, trace.
  destruct (body c) as [[[a|e|] c1] t1]; cbn; [tauto| |tauto].
  destruct e; cbn; tauto.
Qed.

Lemma ensures_try_except_params {A : Type} (body : M A) (handler : string → M A) (c : ctx)
    (Q : result A → ctx → list event → Prop) :
  ensures body c (λ r c1 t1,
    match r with
    | Raised (IncorrectParametersException message) =>
        ensures (handler message) c1 (λ r2 c2 t2, Q r2 c2 (t1 ++ t2))
    | _ => Q r c1 t1
    end) →
  ensures (try_except_params body handler) c Q.
Proof.
  unfold ensures, try_except_params, outcome, final, trace.
  destruct (body c) as [[[a|e|] c1] t1]; cbn; [tauto| |tauto].
  destruct e; cbn; tauto.
Qed.

Lemma ensures_lift {A : Type} (r : result A) (c : ctx)
    (Q : result A → ctx → list event → Prop) :
  Q r c [] → ensures (lift r) c Q.
Proof. intros H. exact H. Qed.

Lemma ensures_emit (e : event) (c : ctx) (Q : result unit → ctx → list event → Prop) :
  Q (Ok tt) c [e] → ensures (emit e) c Q.
Proof. intros H. exact H. Qed.

Lemma ensures_requests_get (url : string) (auth : option string) (c : ctx)
    (Q : result response → ctx → list event → Prop) :
  Q (Ok (remote (sent c) url)) {| headers := headers c; sent := S (sent c) |}
    [Request url auth] →
  ensures (requests_get url auth) c Q.
Proof. intros H. exact H. Qed.

Lemma ensures_get (url : string) (c : ctx)
    (Q : result response → ctx → list event → Prop) :
  match headers c with
  | Some h =>
      Q (by_status (remote (sent c) (BASE_URL +:+ url)))
        {| headers := Some h; sent := S (sent c) |}
        [Request (BASE_URL +:+ url) (Some h)]
  | None => Q (Raised (NameError "headers")) c []
  end →
  ensures (_get url) c Q.
Proof.
  destruct c as [[h|] n]; cbn [headers sent]; unfold ensures.
  - rewrite _get_run. intros H. exact H.
  - intros H. exact H.
Qed.

(** A weaker property follows from a stronger one. *)
Lemma ensures_weaken {A : Type} (m : M A) (c : ctx)
    (P Q : result A → ctx → list event → Prop) :
  ensures m c P → (∀ r c' t, P r c' t → Q r c' t) → ensures m c Q.
Proof. unfold ensures. intros H HPQ. apply HPQ. exact H. Qed.

End Ensures.

Ltac done_run := unfold ensures, secho, emit, raise; cbn; auto.

(** ** The statistics handlers, on every answer *)

Section StatsPaths.
Context `{W : World}.
#[local] Arguments _get : simpl never.
#[local] Arguments String.append : simpl never.
#[local] Arguments str_int : simpl never.

(** X1.  [_get] sends one request, to the path under [BASE_URL] and with the token
    of [headers]; it returns the answer exactly when its status is 200 and
    raises an [APIErrorException] exactly when its status is 400, 403 or 404. *)
Theorem get_returns_and_raises (url h : string) (n : nat) :
  ensures (_get url) {| headers := Some h; sent := n |} (λ r c t,
    t = [Request (BASE_URL +:+ url) (Some h)] ∧
    c = {| headers := Some h; sent := S n |} ∧
    (r = Ok (remote n (BASE_URL +:+ url)) ↔
       status_code (remote n (BASE_URL +:+ url)) = 200) ∧
    (api_error r = true ↔
       status_code (remote n (BASE_URL +:+ url)) = 400 ∨
       status_code (remote n (BASE_URL +:+ url)) = 403 ∨
       status_code (remote n (BASE_URL +:+ url)) = 404)).
Proof.
  unfold ensures. rewrite _get_run. cbn [outcome final trace fst snd].
  split; [reflexivity | split; [reflexivity|]].
  unfold by_status. set (status := status_code (remote n (BASE_URL +:+ url))).
  destruct (Z.eqb_spec status 200) as [H200|H200].
  { split; [tauto | cbn; split; [discriminate | lia]]. }
  destruct (Z.eqb_spec status 400) as [H400|H400].
  { split; [split; [discriminate | contradiction] | cbn; tauto]. }
  destruct (Z.eqb_spec status 403) as [H403|H403].
  { split; [split; [discriminate | contradiction] | cbn; tauto]. }
  destruct (Z.eqb_spec status 404) as [H404|H404].
  { split; [split; [discriminate | contradiction] | cbn; tauto]. }
  split; [split; [discriminate | contradiction] | cbn; split; [discriminate | lia]].
Qed.

(** X2.  [get_team_scores], whatever the team, the context and the answer: no
    [APIErrorException] leaves it, it sends at most one request, and it calls
    the writer at most once, with the answer it received and only when that
    answer has a fixture. *)
Theorem team_scores_every_answer (team : string) (time : Z) (writer : Writer)
    (show_upcoming use_12_hour_format : bool) (c : ctx) :
  ensures (get_team_scores team time writer show_upcoming use_12_hour_format) c
    (λ r _ t,
       api_error r = false ∧
       (length (requests t) ≤ 1)%nat ∧
       (rendered t = [] ∨
        ∃ scores n,
          rendered t = [team_scores scores time show_upcoming use_12_hour_format] ∧
          json_of (remote (sent c)
                     (BASE_URL +:+ "teams/" +:+ format_opt_int (TEAM_NAMES !! team)
                        +:+ "/fixtures?timeFrame=" +:+ (if show_upcoming then "n" else "p")
                        +:+ str_int time)) = Ok scores ∧
          (getitem scores "fixtures" ≫= len) = Ok n ∧ n ≠ 0)).
Proof.
  unfold get_team_scores.
  destruct (truthy_int (TEAM_NAMES !! team)); [|done_run].
  apply ensures_try_except_api, ensures_bind, ensures_get.
  destruct (headers c) as [h|]; [|done_run].
  destruct (by_status _) as [req|e|] eqn:Hstatus; [|destruct e; done_run|done_run].
  apply ensures_bind, ensures_lift.
  destruct (json_of req) as [scores|e|] eqn:Hjson; [|destruct e; done_run|done_run].
  apply ensures_bind, ensures_lift.
  destruct (getitem scores "fixtures" ≫= len) as [k|e|] eqn:Hlen;
    [|destruct e; done_run|done_run].
  destruct (Z.eqb_spec k 0) as [->|Hk]; [done_run|].
  unfold ensures; cbn. split; [reflexivity | split; [lia | right]].
  exists scores, k. repeat split; try assumption.
  unfold by_status in Hstatus; repeat case_match; simplify_eq; exact Hjson.
Qed.

(** X3.  [get_league_scores], whatever the league, the context and the answer: no
    [APIErrorException] leaves it, it sends at most one request, and it calls
    the writer at most once; when a league is given the writer only gets an
    answer that has a fixture, and a league outside [LEAGUE_IDS] ends the call
    with a [KeyError] before anything is sent. *)
Theorem league_scores_every_answer (league : option string) (time : Z) (writer : Writer)
    (show_upcoming use_12_hour_format : bool) (c : ctx) :
  ensures (get_league_scores league time writer show_upcoming use_12_hour_format) c
    (λ r _ t,
       api_error r = false ∧
       (length (requests t) ≤ 1)%nat ∧
       (rendered t = [] ∨
        ∃ fixtures_results,
          rendered t =
            [league_scores fixtures_results time show_upcoming use_12_hour_format] ∧
          (truthy_str league = true →
           ∃ n, (getitem fixtures_results "fixtures" ≫= len) = Ok n ∧ n ≠ 0)) ∧
       (truthy_str league = true → LEAGUE_IDS !! default "" league = None →
        r = Raised (KeyError (default "" league)) ∧ t = [])).
Proof.
  unfold get_league_scores.
  destruct (truthy_str league) eqn:Hleague.
  - apply ensures_try_except_api, ensures_bind, ensures_lift. unfold dict_getitem.
    destruct (LEAGUE_IDS !! default "" league) as [league_id|]; [|done_run].
    apply ensures_bind, ensures_get.
    destruct (headers c) as [h|]; [|done_run; repeat split; auto; discriminate].
    destruct (by_status _) as [req|e|];
      [|destruct e; done_run; repeat split; auto; discriminate
       |done_run; repeat split; auto; discriminate].
    apply ensures_bind, ensures_lift.
    destruct (json_of req) as [fixtures_results|e|];
      [|destruct e; done_run; repeat split; auto; discriminate
       |done_run; repeat split; auto; discriminate].
    apply ensures_bind, ensures_lift.
    destruct (getitem fixtures_results "fixtures" ≫= len) as [k|e|] eqn:Hlen;
      [|destruct e; done_run; repeat split; auto; discriminate
       |done_run; repeat split; auto; discriminate].
    destruct (Z.eqb_spec k 0) as [->|Hk];
      [done_run; repeat split; auto; discriminate|].
    unfold ensures; cbn.
    split; [reflexivity | split; [lia | split; [right; eauto | discriminate]]].
  - apply ensures_try_except_api, ensures_bind, ensures_get.
    destruct (headers c) as [h|]; [|done_run; repeat split; auto; discriminate].
    destruct (by_status _) as [req|e|];
      [|destruct e; done_run; repeat split; auto; discriminate
       |done_run; repeat split; auto; discriminate].
    apply ensures_bind, ensures_lift.
    destruct (json_of req) as [fixtures_results|e|];
      [|destruct e; done_run; repeat split; auto; discriminate
       |done_run; repeat split; auto; discriminate].
    unfold ensures; cbn.
    split; [reflexivity | split; [lia | split; [right | discriminate]]].
    eexists. split; [reflexivity | discriminate].
Qed.

(** X4.  [get_team_players], whatever the team, the context and the answer: no
    [APIErrorException] leaves it, it sends at most one request, and it calls
    the writer at most once, with the answer it received and only when the
    count in that answer is not zero. *)
Theorem team_players_every_answer (team : string) (writer : Writer) (c : ctx) :
  ensures (get_team_players team writer) c
    (λ r _ t,
       api_error r = false ∧
       (length (requests t) ≤ 1)%nat ∧
       (rendered t = [] ∨
        ∃ players count,
          rendered t = [team_players players] ∧
          json_of (remote (sent c)
                     (BASE_URL +:+ "teams/" +:+ format_opt_int (TEAM_NAMES !! team)
                        +:+ "/players")) = Ok players ∧
          (getitem players "count" ≫= int_of) = Ok count ∧ count ≠ 0)).
Proof.
  unfold get_team_players.
  apply ensures_try_except_api, ensures_bind, ensures_get.
  destruct (headers c) as [h|]; [|done_run].
  destruct (by_status _) as [req|e|] eqn:Hstatus; [|destruct e; done_run|done_run].
  apply ensures_bind, ensures_lift.
  destruct (json_of req) as [players|e|] eqn:Hjson; [|destruct e; done_run|done_run].
  apply ensures_bind, ensures_lift.
  destruct (getitem players "count" ≫= int_of) as [k|e|] eqn:Hcount;
    [|destruct e; done_run|done_run].
  destruct (Z.eqb_spec k 0) as [->|Hk]; [done_run|].
  unfold ensures; cbn. split; [reflexivity | split; [lia | right]].
  exists players, k. repeat split; try assumption.
  unfold by_status in Hstatus; repeat case_match; simplify_eq; exact Hjson.
Qed.

(** X5.  [get_standings], whatever the league, the context and the answer: no
    [APIErrorException] leaves it, it sends at most one request, and it calls
    the writer at most once, with the operation that [extended] selects; a
    league outside [LEAGUE_IDS] ends the call with a [KeyError] before
    anything is sent or printed. *)
Theorem standings_every_answer (league : string) (writer : Writer) (extended : bool)
    (c : ctx) :
  ensures (get_standings league writer extended) c
    (λ r _ t,
       api_error r = false ∧
       (length (requests t) ≤ 1)%nat ∧
       (rendered t = [] ∨
        ∃ table,
          rendered t = [if extended then standings_extended table league
                        else standings table league]) ∧
       (LEAGUE_IDS !! league = None → r = Raised (KeyError league) ∧ t = [])).
Proof.
  unfold get_standings. apply ensures_bind, ensures_lift. unfold dict_getitem.
  destruct (LEAGUE_IDS !! league) as [league_id|]; [|done_run].
  apply ensures_try_except_api, ensures_bind, ensures_get.
  destruct (headers c) as [h|]; [|done_run; repeat split; auto; discriminate].
  destruct (by_status _) as [req|e|];
    [|destruct e; done_run; repeat split; auto; discriminate
     |done_run; repeat split; auto; discriminate].
  apply ensures_bind, ensures_lift.
  destruct (json_of req) as [table|e|];
    [|destruct e; done_run; repeat split; auto; discriminate
     |done_run; repeat split; auto; discriminate].
  destruct extended; unfold ensures; cbn;
    (split; [reflexivity | split; [lia | split; [right; eauto | discriminate]]]).
Qed.


End StatsPaths.

(** ** The team table, first and last entries *)

Section TeamTable.
Context `{W : World}.

Lemma fold_names_other (teams : list team) (names : gmap string Z) (code : string) :
  Forall (λ t, team_code t ≠ code) teams →
  fold_left (λ names t, <[team_code t := team_id t]> names) teams names !! code =
    names !! code.
Proof.
  intros Hall. revert names.
  induction Hall as [|t teams Hne _ IH]; intros names; cbn [fold_left]; [reflexivity|].
  rewrite IH. apply lookup_insert_ne. exact Hne.
Qed.

(** X7.  [TEAM_NAMES] gives a code the id of the last entry of [TEAM_DATA] that
    carries it: the dictionary comprehension lets later entries overwrite
    earlier ones. *)
Theorem TEAM_NAMES_last_entry (before after : list team) (t : team) :
  TEAM_DATA = before ++ t :: after →
  Forall (λ x, team_code x ≠ team_code t) after →
  TEAM_NAMES !! team_code t = Some (team_id t).
Proof.
  intros Hdata Hafter. unfold TEAM_NAMES. rewrite Hdata, fold_left_app. cbn [fold_left].
  rewrite fold_names_other by exact Hafter. apply lookup_insert_eq.
Qed.

(** X8.  [map_team_id] prints the name of the first entry of [TEAM_DATA] that
    carries the code, and does nothing else. *)
Theorem map_team_id_first_entry (before after : list team) (t : team) (c : ctx) :
  TEAM_DATA = before ++ t :: after →
  Forall (λ x, team_code x ≠ team_code t) before →
  map_team_id (team_code t) c = (Ok tt, c, [Secho (team_name t) true]).
Proof.
  intros Hdata Hbefore. unfold map_team_id. rewrite Hdata. clear Hdata.
  induction Hbefore as [|x before Hne _ IH]; cbn [app List.find].
  - rewrite String.eqb_refl. reflexivity.
  - apply String.eqb_neq in Hne. rewrite Hne. exact IH.
Qed.

End TeamTable.

(** In the second world the code [FCB] is carried by two teams: the id is the
    one of the last, FC Barcelona. *)
Lemma TEAM_NAMES_last_entry_witness :
  @TEAM_NAMES demo_world !! "FCB" = Some 81.
Proof.
  apply (@TEAM_NAMES_last_entry demo_world (firstn 3 demo_teams) []
           {| team_code := "FCB"; team_id := 81; team_name := "FC Barcelona";
              team_league_name := "Primera Division" |}).
  - reflexivity.
  - constructor.
Defined.

(** ... and the name printed is the one of the first, FC Bayern Muenchen. *)
Lemma map_team_id_first_entry_witness :
  @map_team_id demo_world "FCB" fresh_ctx =
    (Ok tt, fresh_ctx, [Secho "FC Bayern Muenchen" true]).
Proof.
  apply (@map_team_id_first_entry demo_world [] (skipn 1 demo_teams)
           {| team_code := "FCB"; team_id := 5; team_name := "FC Bayern Muenchen";
              team_league_name := "1. Bundesliga" |}).
  - reflexivity.
  - constructor.
Defined.

(** ** What the loops over the live games leave alone *)

Section LiveFrames.
Context `{W : World}.

(** X9.  The loop body of [get_live_scores] changes at most the league of a game:
    every other key reads as before, and no key is added or removed. *)
Theorem relabel_game_keeps_other_fields (game game' : json) :
  relabel_game game = Ok game' →
  (∀ key, key ≠ "league" → getitem game' key = getitem game key) ∧
  len game' = len game.
Proof.
  unfold relabel_game. destruct game as [| | | | |fields]; try discriminate.
  cbn. destruct (assoc "league" fields) as [raw|] eqn:Hraw; [|discriminate]. cbn.
  destruct raw as [| | |name| |]; try discriminate;
    try (intros [= <-]; split; reflexivity).
  destruct (LEAGUE_KEYS !! name) as [code|]; [|intros [= <-]; split; reflexivity].
  cbn. intros [= <-]. split.
  - intros key Hkey. cbn. rewrite assoc_set_other by exact Hkey. reflexivity.
  - cbn. rewrite (assoc_set_length _ _ _ _ Hraw). reflexivity.
Qed.

(** X10.  Whatever the games are, the loop of [get_live_league] keeps no more games
    than it was given, and every game it keeps carries the requested league
    code as its league. *)
Theorem keep_league_tags_what_it_keeps (league : string) (games kept : list json) :
  keep_league league games = Ok kept →
  (length kept ≤ length games)%nat ∧
  Forall (λ game, getitem game "league" = Ok (JStr league)) kept.
Proof.
  revert kept. induction games as [|game games IH]; intros kept; cbn [keep_league].
  - intros [= <-]. split; [reflexivity | constructor].
  - destruct (getitem game "league") as [raw|e|] eqn:Hraw; cbn; try discriminate.
    destruct (dict_getitem LEAGUE_NAMES league) as [name|e|]; cbn; try discriminate.
    destruct (eq_str raw name).
    + destruct (setitem game "league" (JStr league)) as [game'|e|] eqn:Hset; cbn;
        try discriminate.
      destruct (keep_league league games) as [rest|e|]; cbn; try discriminate.
      intros [= <-]. destruct (IH rest eq_refl) as [Hlen Hall].
      split; [cbn; lia|]. constructor; [|exact Hall].
      destruct game; try discriminate. injection Hset as <-. cbn.
      rewrite assoc_set_same. reflexivity.
    + intros Hrest. destruct (IH kept Hrest) as [Hlen Hall].
      split; [cbn; lia | exact Hall].
Qed.

End LiveFrames.

(** An English game of the sample service keeps its teams and score when it is
    re-labelled. *)
Lemma relabel_game_keeps_other_fields_witness :
  getitem (with_league "EPL" (sample_game "England - Premier League" "Arsenal FC" "Valur"))
    "homeTeamName" = Ok (JStr "Arsenal FC").
Proof.
  apply (proj1 (@relabel_game_keeps_other_fields sample_world
                  (sample_game "England - Premier League" "Arsenal FC" "Valur")
                  (with_league "EPL"
                     (sample_game "England - Premier League" "Arsenal FC" "Valur"))
                  eq_refl) "homeTeamName").
  discriminate.
Defined.

(** Of the three sample games one is kept for the Premier League. *)
Lemma keep_league_tags_what_it_keeps_witness :
  (length [with_league "EPL"
             (sample_game "England - Premier League" "Arsenal FC" "Manchester United FC")]
     ≤ length sample_games)%nat ∧
  Forall (λ game, getitem game "league" = Ok (JStr "EPL"))
    [with_league "EPL"
       (sample_game "England - Premier League" "Arsenal FC" "Manchester United FC")].
Proof.
  exact (@keep_league_tags_what_it_keeps sample_world "EPL" sample_games
           [with_league "EPL"
              (sample_game "England - Premier League" "Arsenal FC" "Manchester United FC")]
           eq_refl).
Defined.

(** ** The live handlers, on every answer and for every depth *)

Section LivePaths.
Context `{W : World}.
#[local] Arguments String.append : simpl never.
#[local] Arguments str_int : simpl never.

Lemma requests_app (t1 t2 : list event) : requests (t1 ++ t2) = requests t1 ++ requests t2.
Proof. unfold requests. induction t1 as [|e t1 IH]; cbn; [reflexivity|].
       destruct (is_request e); cbn; rewrite IH; reflexivity. Qed.

Lemma rendered_app (t1 t2 : list event) : rendered (t1 ++ t2) = rendered t1 ++ rendered t2.
Proof. unfold rendered. induction t1 as [|e t1 IH]; cbn; [reflexivity|].
       rewrite IH, app_assoc. reflexivity. Qed.

Lemma announce_refresh_run (refresh : Z) (c : ctx) :
  announce_refresh refresh c = (Ok tt, c, refresh_notice refresh).
Proof. destruct c. reflexivity. Qed.

Lemma for_each_length (body : json → result json) (games games' : list json) :
  for_each body games = Ok games' → length games' = length games.
Proof.
  revert games'. induction games as [|game games IH]; intros games'; cbn [for_each].
  - intros [= <-]. reflexivity.
  - destruct (body game) as [game1|e|]; cbn; try discriminate.
    destruct (for_each body games) as [rest|e|]; cbn; try discriminate.
    intros [= <-]. cbn. rewrite (IH rest eq_refl). reflexivity.
Qed.

(** The operations on Python values raise the interpreter's exceptions only. *)
Lemma own_error_false (e : exn) :
  own_error e = false →
  api_error (@Raised unit e) = false ∧ params_error (@Raised unit e) = false.
Proof. destruct e; cbn; intros H; try discriminate; split; reflexivity. Qed.

Lemma json_of_errors (req : response) (e : exn) :
  json_of req = Raised e → own_error e = false.
Proof. unfold json_of. destruct (body req); intros [= <-]. reflexivity. Qed.

Lemma getitem_errors (x : json) (key : string) (e : exn) :
  getitem x key = Raised e → own_error e = false.
Proof.
  destruct x; cbn; try (intros [= <-]; reflexivity).
  destruct (assoc key fields); intros [= <-]. reflexivity.
Qed.

Lemma setitem_errors (x : json) (key : string) (v : json) (e : exn) :
  setitem x key v = Raised e → own_error e = false.
Proof. destruct x; cbn; intros [= <-]; reflexivity. Qed.

Lemma len_errors (x : json) (e : exn) : len x = Raised e → own_error e = false.
Proof. destruct x; cbn; intros [= <-]; reflexivity. Qed.

Lemma iter_errors (x : json) (e : exn) : iter x = Raised e → own_error e = false.
Proof. destruct x; cbn; intros [= <-]; reflexivity. Qed.

Lemma dict_getitem_errors {V : Type} (d : gmap string V) (key : string) (e : exn) :
  dict_getitem d key = Raised e → own_error e = false.
Proof. unfold dict_getitem. destruct (d !! key); intros [= <-]. reflexivity. Qed.

Lemma relabel_game_errors (game : json) (e : exn) :
  relabel_game game = Raised e → own_error e = false.
Proof.
  unfold relabel_game. destruct (getitem game "league") as [raw|e'|] eqn:Hraw; cbn.
  - destruct raw as [| | |name| |]; try discriminate; try (intros [= <-]; reflexivity).
    destruct (LEAGUE_KEYS !! name); [apply setitem_errors | discriminate].
  - intros [= <-]. eapply getitem_errors; eassumption.
  - discriminate.
Qed.

Lemma for_each_errors (games : list json) (e : exn) :
  for_each relabel_game games = Raised e → own_error e = false.
Proof.
  induction games as [|game games IH]; cbn [for_each]; [discriminate|].
  destruct (relabel_game game) as [game'|e'|] eqn:Hgame; cbn.
  - destruct (for_each relabel_game games) as [rest|e'|]; cbn; try discriminate.
    intros [= <-]. apply IH. reflexivity.
  - intros [= <-]. eapply relabel_game_errors; eassumption.
  - discriminate.
Qed.

Lemma keep_league_errors (league : string) (games : list json) (e : exn) :
  keep_league league games = Raised e → own_error e = false.
Proof.
  induction games as [|game games IH]; cbn [keep_league]; [discriminate|].
  destruct (getitem game "league") as [raw|e'|] eqn:Hraw; cbn;
    [|intros [= <-]; eapply getitem_errors; eassumption|discriminate].
  destruct (dict_getitem LEAGUE_NAMES league) as [name|e'|] eqn:Hname; cbn;
    [|intros [= <-]; eapply dict_getitem_errors; eassumption|discriminate].
  destruct (eq_str raw name); [|exact IH].
  destruct (setitem game "league" (JStr league)) as [game'|e'|] eqn:Hset; cbn;
    [|intros [= <-]; eapply setitem_errors; eassumption|discriminate].
  destruct (keep_league league games) as [rest|e'|]; cbn; try discriminate.
  intros [= <-]. apply IH. reflexivity.
Qed.

Lemma live_run_ok_prefix (u : bool) (r : result unit) (t1 t2 : list event) :
  live_run_ok u (Ok tt) t1 → live_run_ok u r t2 → live_run_ok u r (t1 ++ t2).
Proof.
  unfold live_run_ok. intros (_ & _ & Hreq1 & Hren1) (Hapi & Hpar & Hreq2 & Hren2).
  rewrite requests_app, rendered_app.
  repeat split; try assumption; apply Forall_app; split; assumption.
Qed.

Lemma get_live_scores_ok (fuel : nat) (writer : Writer) (use_12_hour_format : bool)
    (refresh : Z) (c : ctx) :
  ensures (get_live_scores fuel writer use_12_hour_format refresh) c
    (λ r _ t, live_run_ok use_12_hour_format r t).
Proof.
  revert c. induction fuel as [|fuel IH]; intros c; cbn [get_live_scores].
  { unfold ensures, live_run_ok. cbn. repeat split; constructor. }
  assert (Hstop : ∀ e, own_error e = false →
            live_run_ok use_12_hour_format (Raised e) [Request LIVE_URL None]).
  { intros e He. destruct (own_error_false e He) as [Hapi Hpar]. unfold live_run_ok. cbn.
    repeat split; try assumption; repeat constructor. }
  assert (Hfuel : live_run_ok use_12_hour_format OutOfFuel [Request LIVE_URL None]).
  { unfold live_run_ok. cbn. repeat split; repeat constructor. }
  assert (Hsay : ∀ text, live_run_ok use_12_hour_format (Ok tt)
                           [Request LIVE_URL None; Secho text true]).
  { intros text. unfold live_run_ok. cbn. repeat split; repeat constructor. }
  apply ensures_bind, ensures_requests_get.
  destruct (status_code (remote (sent c) LIVE_URL) =? 200); [|apply Hsay].
  apply ensures_bind, ensures_lift.
  destruct (json_of _) as [scores|e|] eqn:Hjson;
    [|apply Hstop; eapply json_of_errors; eassumption|apply Hfuel].
  apply ensures_bind, ensures_lift.
  destruct (getitem scores "games") as [container|e|] eqn:Hcontainer;
    [|apply Hstop; eapply getitem_errors; eassumption|apply Hfuel].
  apply ensures_bind, ensures_lift.
  destruct (len container) as [n|e|] eqn:Hlen;
    [|apply Hstop; eapply len_errors; eassumption|apply Hfuel].
  destruct (Z.eqb_spec n 0) as [->|Hn]; [apply Hsay|].
  apply ensures_bind, ensures_lift.
  destruct (iter container) as [games|e|] eqn:Hiter;
    [|apply Hstop; eapply iter_errors; eassumption|apply Hfuel].
  apply ensures_bind, ensures_lift.
  destruct (for_each relabel_game games) as [games'|e|] eqn:Hloop;
    [|apply Hstop; eapply for_each_errors; eassumption|apply Hfuel].
  assert (Hshown : ∃ shown, getitem (mutated scores container games') "games"
                              = Ok (JArr shown) ∧ shown ≠ []).
  { destruct scores as [| | | | |fields]; try discriminate.
    destruct container as [| | | |items|]; cbn.
    - discriminate.
    - discriminate.
    - discriminate.
    - cbn in Hiter. injection Hiter as <-. cbn in Hlen. injection Hlen as <-.
      destruct (String.length s) eqn:Hs; [contradiction|].
      destruct s as [|ch s]; [discriminate|]. cbn in Hloop. discriminate.
    - cbn in Hiter. injection Hiter as <-. cbn in Hlen. injection Hlen as <-.
      exists games'. rewrite assoc_set_same. split; [reflexivity|].
      apply for_each_length in Hloop. destruct games'; [|discriminate].
      destruct items; [contradiction | discriminate].
    - cbn in Hiter. injection Hiter as <-. cbn in Hlen. injection Hlen as <-.
      destruct fields0 as [|[k v] fields0]; [contradiction|]. cbn in Hloop. discriminate. }
  destruct Hshown as (shown & Hshown & Hsome).
  assert (Hround : live_run_ok use_12_hour_format (Ok tt)
            ([Request LIVE_URL None] ++ [] ++ [] ++ [] ++ [] ++ []
               ++ [Render writer (live_scores (mutated scores container games')
                                    use_12_hour_format)])).
  { unfold live_run_ok. cbn. repeat split; repeat constructor. eauto. }
  apply ensures_bind, ensures_emit.
  destruct (0 <? refresh).
  - apply ensures_bind. unfold ensures at 1. rewrite announce_refresh_run.
    cbn [outcome final trace fst snd].
    eapply ensures_weaken; [apply IH|].
    intros r c' t Hrest. cbn beta in Hrest |- *. cbn [app] in Hround |- *.
    apply (live_run_ok_prefix use_12_hour_format r
             [Request LIVE_URL None;
              Render writer (live_scores (mutated scores container games')
                               use_12_hour_format)]
             (refresh_notice refresh ++ t) Hround).
    apply live_run_ok_prefix; [|exact Hrest].
    unfold live_run_ok. cbn. repeat split; constructor.
  - unfold ensures. cbn [outcome final trace fst snd mret M_ret app].
    cbn [app] in Hround. exact Hround.
Qed.

Lemma get_live_league_ok (fuel : nat) (writer : Writer) (use_12_hour_format : bool)
    (league : string) (refresh : Z) (c : ctx) :
  ensures (get_live_league fuel writer use_12_hour_format league refresh) c
    (λ r _ t, live_run_ok use_12_hour_format r t).
Proof.
  revert c. induction fuel as [|fuel IH]; intros c; cbn [get_live_league].
  { unfold ensures, live_run_ok. cbn. repeat split; constructor. }
  change LIVE_LEAGUES_URL with LIVE_URL.
  assert (Hstop : ∀ e, own_error e = false →
            live_run_ok use_12_hour_format (Raised e) [Request LIVE_URL None]).
  { intros e He. destruct (own_error_false e He) as [Hapi Hpar]. unfold live_run_ok. cbn.
    repeat split; try assumption; repeat constructor. }
  assert (Hfuel : live_run_ok use_12_hour_format OutOfFuel [Request LIVE_URL None]).
  { unfold live_run_ok. cbn. repeat split; repeat constructor. }
  assert (Hsay : ∀ text, live_run_ok use_12_hour_format (Ok tt)
                           [Request LIVE_URL None; Secho text true]).
  { intros text. unfold live_run_ok. cbn. repeat split; repeat constructor. }
  apply ensures_bind, ensures_requests_get.
  destruct (status_code (remote (sent c) LIVE_URL) =? 200); [|apply Hsay].
  apply ensures_bind, ensures_lift.
  destruct (json_of _) as [scores|e|] eqn:Hjson;
    [|apply Hstop; eapply json_of_errors; eassumption|apply Hfuel].
  apply ensures_bind, ensures_lift.
  destruct (getitem scores "games") as [container|e|] eqn:Hcontainer;
    [|apply Hstop; eapply getitem_errors; eassumption|apply Hfuel].
  apply ensures_bind, ensures_lift.
  destruct (len container) as [n|e|] eqn:Hlen;
    [|apply Hstop; eapply len_errors; eassumption|apply Hfuel].
  destruct (Z.eqb_spec n 0) as [->|Hn]; [apply Hsay|].
  apply ensures_bind, ensures_lift.
  destruct (iter container) as [games|e|] eqn:Hiter;
    [|apply Hstop; eapply iter_errors; eassumption|apply Hfuel].
  apply ensures_bind, ensures_lift.
  destruct (keep_league league games) as [kept|e|] eqn:Hloop;
    [|apply Hstop; eapply keep_league_errors; eassumption|apply Hfuel].
  destruct kept as [|game kept]; [apply Hsay|].
  cbn [length Z.of_nat Z.eqb].
  assert (Hround : live_run_ok use_12_hour_format (Ok tt)
            [Request LIVE_URL None;
             Render writer (live_scores (JObj [("games", JArr (game :: kept))])
                              use_12_hour_format)]).
  { unfold live_run_ok. cbn. repeat split; repeat constructor.
    exists (JObj [("games", JArr (game :: kept))]), (game :: kept).
    repeat split. discriminate. }
  apply ensures_bind, ensures_emit.
  destruct (0 <? refresh).
  - apply ensures_bind. unfold ensures at 1. rewrite announce_refresh_run.
    cbn [outcome final trace fst snd].
    eapply ensures_weaken; [apply IH|].
    intros r c' t Hrest. cbn beta in Hrest |- *. cbn [app].
    apply (live_run_ok_prefix use_12_hour_format r
             [Request LIVE_URL None;
              Render writer (live_scores (JObj [("games", JArr (game :: kept))])
                               use_12_hour_format)]
             (refresh_notice refresh ++ t) Hround).
    apply live_run_ok_prefix; [|exact Hrest].
    unfold live_run_ok. cbn. repeat split; constructor.
  - unfold ensures. cbn [outcome final trace fst snd mret M_ret app]. exact Hround.
Qed.

(** X11.  However deep the polling goes and whatever the live service answers, the
    requests of [get_live_scores] and [get_live_league] go to the live service
    without the API token, and the writer is only ever handed a non-empty list
    of games. *)
Theorem live_handlers_every_round (fuel : nat) (writer : Writer)
    (use_12_hour_format : bool) (league : string) (refresh : Z) (c : ctx) :
  ensures (get_live_scores fuel writer use_12_hour_format refresh) c (λ _ _ t,
    Forall (λ e, e = Request LIVE_URL None) (requests t) ∧
    Forall (λ call, ∃ scores games,
              call = live_scores scores use_12_hour_format ∧
              getitem scores "games" = Ok (JArr games) ∧ games ≠ [])
      (rendered t)) ∧
  ensures (get_live_league fuel writer use_12_hour_format league refresh) c (λ _ _ t,
    Forall (λ e, e = Request LIVE_URL None) (requests t) ∧
    Forall (λ call, ∃ scores games,
              call = live_scores scores use_12_hour_format ∧
              getitem scores "games" = Ok (JArr games) ∧ games ≠ [])
      (rendered t)).
Proof.
  split.
  - eapply ensures_weaken; [apply get_live_scores_ok|].
    intros r c' t (_ & _ & Hreq & Hren). split; assumption.
  - eapply ensures_weaken; [apply get_live_league_ok|].
    intros r c' t (_ & _ & Hreq & Hren). split; assumption.
Qed.

End LivePaths.

(** ** How long the polling lasts *)

Section Polling.
Context `{W : World}.
#[local] Arguments String.append : simpl never.
#[local] Arguments str_int : simpl never.

Variables (hd : option string) (writer : Writer) (use_12_hour_format : bool).
Variable refresh : Z.
Hypothesis polling : 0 < refresh.

Lemma live_scores_last_round (fuel n : nat) (text : string) :
  last_round n text →
  get_live_scores (S fuel) writer use_12_hour_format refresh {| headers := hd; sent := n |} =
    (Ok tt, {| headers := hd; sent := S n |}, [Request LIVE_URL None; Secho text true]).
Proof.
  intros [[Hstatus ->]|(fields & Hanswer & Hgames & ->)]; cbn [get_live_scores];
    unfold mbind, M_bind, requests_get, lift; cbn [sent headers].
  - apply Z.eqb_neq in Hstatus. rewrite Hstatus. reflexivity.
  - rewrite Hanswer. cbn. rewrite Hgames. reflexivity.
Qed.

(** As long as the rounds are good ones, every unit of depth is spent on one
    more nested call. *)
Lemma live_scores_depth_used (fuel : nat) :
  ∀ n, (∀ i, (n ≤ i < n + fuel)%nat → good_round i) →
       outcome (get_live_scores fuel writer use_12_hour_format refresh
                  {| headers := hd; sent := n |}) = OutOfFuel.
Proof.
  induction fuel as [|fuel IH]; intros n Hgood; [reflexivity|].
  destruct (Hgood n ltac:(lia)) as (fields & games & Hanswer & Hgames & Hsome & Hlive).
  destruct (for_each_relabel games Hlive) as (games' & Hloop & _).
  rewrite (live_scores_round hd n writer use_12_hour_format fields games
             Hanswer Hgames Hsome fuel refresh games' Hloop).
  apply Z.ltb_lt in polling. rewrite polling.
  apply (IH (S n)). intros i Hi. apply Hgood. lia.
Qed.

(** X12.  With a positive interval, [get_live_scores] polls until the first answer
    that is not a 200 answer or holds no game, one nested call deeper with
    each round.  When [k] good rounds come before that answer, the call
    returns exactly if it may nest more than [k] calls: it has then called the
    writer [k] times, sent [k + 1] requests, and its last output is the
    message of the last round.  With a depth of [k] or less the depth is used
    up before the call returns. *)
Theorem polling_ends_at_first_bad_round (k n : nat) (text : string) :
  (∀ i, (n ≤ i < n + k)%nat → good_round i) →
  last_round (n + k) text →
  ∀ fuel,
    ((k < fuel)%nat →
     ∃ t,
       get_live_scores fuel writer use_12_hour_format refresh {| headers := hd; sent := n |} =
         (Ok tt, {| headers := hd; sent := S (n + k) |}, t ++ [Secho text true]) ∧
       length (rendered t) = k ∧
       length (requests t) = S k) ∧
    ((fuel ≤ k)%nat →
     outcome (get_live_scores fuel writer use_12_hour_format refresh
                {| headers := hd; sent := n |}) = OutOfFuel).
Proof.
  intros Hgood Hlast fuel. split.
  - revert n Hgood Hlast fuel. induction k as [|k IH]; intros n Hgood Hlast fuel Hfuel;
      (destruct fuel as [|fuel]; [lia|]).
    + rewrite Nat.add_0_r in Hlast |- *.
      rewrite (live_scores_last_round fuel n text Hlast).
      exists [Request LIVE_URL None]. repeat split.
    + destruct (Hgood n ltac:(lia)) as (fields & games & Hanswer & Hgames & Hsome & Hlive).
      destruct (for_each_relabel games Hlive) as (games' & Hloop & _).
      rewrite (live_scores_round hd n writer use_12_hour_format fields games
                 Hanswer Hgames Hsome fuel refresh games' Hloop).
      apply Z.ltb_lt in polling. rewrite polling.
      destruct (IH (S n)) with (fuel := fuel) as (t & Hrun & Hren & Hreq).
      * intros i Hi. apply Hgood. lia.
      * replace (S n + k)%nat with (n + S k)%nat by lia. exact Hlast.
      * lia.
      * rewrite Hrun. eexists. split.
        -- unfold prefixed. cbn [fst snd]. rewrite app_assoc.
           replace (S (S n + k)) with (S (n + S k)) by lia. reflexivity.
        -- rewrite rendered_app, requests_app, !length_app, Hren, Hreq. split; reflexivity.
  - intros Hfuel. apply live_scores_depth_used. intros i Hi. apply Hgood. lia.
Qed.

(** X13.  With a positive interval and a live service that always has games,
    [get_live_scores] does not return: every unit of depth it is given is
    spent on one more round, each with its request and its call of the
    writer. *)
Theorem polling_goes_on_while_games_are_live (n : nat) :
  (∀ i, (n ≤ i)%nat → good_round i) →
  ∀ fuel,
    outcome (get_live_scores fuel writer use_12_hour_format refresh
               {| headers := hd; sent := n |}) = OutOfFuel ∧
    length (rendered (trace (get_live_scores fuel writer use_12_hour_format refresh
                               {| headers := hd; sent := n |}))) = fuel ∧
    sent (final (get_live_scores fuel writer use_12_hour_format refresh
                   {| headers := hd; sent := n |})) = (n + fuel)%nat.
Proof.
  intros Hgood fuel. revert n Hgood. induction fuel as [|fuel IH]; intros n Hgood.
  - cbn. repeat split. lia.
  - destruct (Hgood n ltac:(lia)) as (fields & games & Hanswer & Hgames & Hsome & Hlive).
    destruct (for_each_relabel games Hlive) as (games' & Hloop & _).
    rewrite (live_scores_round hd n writer use_12_hour_format fields games
               Hanswer Hgames Hsome fuel refresh games' Hloop).
    apply Z.ltb_lt in polling. rewrite polling.
    destruct (IH (S n)) as (Hout & Hren & Hsent).
    + intros i Hi. apply Hgood. lia.
    + split; [exact Hout | split].
      * rewrite trace_prefixed, rendered_app, length_app, Hren. reflexivity.
      * change (sent (final (get_live_scores fuel writer use_12_hour_format refresh
                               {| headers := hd; sent := S n |})) = (n + S fuel)%nat).
        rewrite Hsent. lia.
Qed.

End Polling.

(** In the second world the live service fails at its third answer: polling
    every 5 seconds shows the games twice and then reports the problem, in
    three nested calls; two are not enough. *)
Lemma polling_ends_at_first_bad_round_witness :
  (∃ t,
     @get_live_scores demo_world 3 sample_writer false 5 fresh_ctx =
       (Ok tt, {| headers := None; sent := 3 |},
        t ++ [Secho "There was problem getting live scores" true]) ∧
     length (rendered t) = 2%nat ∧
     length (requests t) = 3%nat) ∧
  outcome (@get_live_scores demo_world 2 sample_writer false 5 fresh_ctx) = OutOfFuel.
Proof.
  assert (Hgood : ∀ i, (0 ≤ i < 0 + 2)%nat → @good_round demo_world i).
  { intros i Hi. exists sample_live_fields, sample_games.
    assert (Hi' : i = 0%nat ∨ i = 1%nat) by lia.
    destruct Hi' as [-> | ->]; repeat split; discriminate. }
  assert (Hlast : @last_round demo_world (0 + 2) "There was problem getting live scores").
  { left. split; [discriminate | reflexivity]. }
  split.
  - apply (@polling_ends_at_first_bad_round demo_world None sample_writer false 5 eq_refl
             2 0 "There was problem getting live scores" Hgood Hlast 3). lia.
  - apply (@polling_ends_at_first_bad_round demo_world None sample_writer false 5 eq_refl
             2 0 "There was problem getting live scores" Hgood Hlast 2). lia.
Defined.

(** In the first world the live service always has its three games: a depth of
    4 gives four rounds and no return. *)
Lemma polling_goes_on_while_games_are_live_witness :
  outcome (@get_live_scores sample_world 4 sample_writer false 5 fresh_ctx) = OutOfFuel ∧
  length (rendered (trace (@get_live_scores sample_world 4 sample_writer false 5
                             fresh_ctx))) = 4%nat ∧
  sent (final (@get_live_scores sample_world 4 sample_writer false 5 fresh_ctx)) = 4%nat.
Proof.
  apply (@polling_goes_on_while_games_are_live sample_world None sample_writer false 5
           eq_refl 0).
  intros i _. exists sample_live_fields, sample_games.
  repeat split; discriminate.
Defined.

(** ** Commands that only print *)

Section Printing.
Context `{W : World}.
#[local] Arguments String.append : simpl never.

Lemma for_prints {A : Type} (items : list A) (body : A → M unit) :
  (∀ item c, ∃ t, body item c = (Ok tt, c, t) ∧ forallb is_secho t = true) →
  ∀ c, ∃ t, for_ items body c = (Ok tt, c, t) ∧ forallb is_secho t = true.
Proof.
  intros Hbody. induction items as [|item items IH]; intros c; cbn [for_].
  - exists []. split; reflexivity.
  - destruct (Hbody item c) as (t1 & Hrun1 & Hp1). destruct (IH c) as (t2 & Hrun2 & Hp2).
    exists (t1 ++ t2). unfold mbind, M_bind. rewrite Hrun1, Hrun2. split; [reflexivity|].
    rewrite forallb_app, Hp1, Hp2. reflexivity.
Qed.

Lemma list_team_codes_prints (c : ctx) :
  ∃ t, list_team_codes c = (Ok tt, c, t) ∧ forallb is_secho t = true.
Proof.
  unfold list_team_codes. apply for_prints. intros league c'.
  match goal with
  | |- context [for_ ?teams ?body] =>
      destruct (for_prints teams body) with (c := c') as (t & Hrun & Hp)
  end.
  - intros team c''. destruct (negb _); eexists; split; reflexivity.
  - exists ([Secho league true] ++ t ++ [Secho "" true]).
    unfold mbind, M_bind. cbn [secho emit prefixed fst snd]. rewrite Hrun. cbn.
    split; [reflexivity|]. rewrite forallb_app, Hp. reflexivity.
Qed.

Lemma list_league_codes_prints (c : ctx) :
  ∃ t, list_league_codes c = (Ok tt, c, t) ∧ forallb is_secho t = true.
Proof.
  unfold list_league_codes. apply for_prints. intros league c'.
  eexists. split; reflexivity.
Qed.

Lemma map_team_id_prints (code : string) (c : ctx) :
  ∃ t, map_team_id code c = (Ok tt, c, t) ∧ forallb is_secho t = true.
Proof.
  unfold map_team_id. destruct (List.find _ _); eexists; split; reflexivity.
Qed.

Lemma prints_nothing_else (t : list event) :
  forallb is_secho t = true → requests t = [] ∧ rendered t = [].
Proof.
  induction t as [|e t IH]; cbn; [split; reflexivity|].
  destruct e; cbn; try discriminate. exact IH.
Qed.

(** X14.  [list_team_codes], [list_league_codes] and [map_team_id] always return
    normally and leave the context as it was; they send no request and never
    call the writer, whatever the tables hold. *)
Theorem listings_only_print (code : string) (c : ctx) :
  (∃ t, list_team_codes c = (Ok tt, c, t) ∧ requests t = [] ∧ rendered t = []) ∧
  (∃ t, list_league_codes c = (Ok tt, c, t) ∧ requests t = [] ∧ rendered t = []) ∧
  (∃ t, map_team_id code c = (Ok tt, c, t) ∧ requests t = [] ∧ rendered t = []).
Proof.
  split; [|split].
  - destruct (list_team_codes_prints c) as (t & Hrun & Hp).
    exists t. split; [exact Hrun | apply prints_nothing_else; exact Hp].
  - destruct (list_league_codes_prints c) as (t & Hrun & Hp).
    exists t. split; [exact Hrun | apply prints_nothing_else; exact Hp].
  - destruct (map_team_id_prints code c) as (t & Hrun & Hp).
    exists t. split; [exact Hrun | apply prints_nothing_else; exact Hp].
Qed.

End Printing.

(** ** What [main] lets through, and which option wins *)

Section MainPaths.
Context `{W : World}.
#[local] Arguments _get : simpl never.
#[local] Arguments String.append : simpl never.
#[local] Arguments str_int : simpl never.

Lemma ensures_try_quiet {A : Type} (body : M A) (handler : string → M A) (c : ctx) :
  (∀ message c', api_error (outcome (handler message c')) = false) →
  ensures (try_except_api body handler) c (λ r _ _, api_error r = false).
Proof.
  intros Hhandler. unfold ensures, try_except_api, outcome.
  destruct (body c) as [[[a|e|] c1] t1]; cbn; try reflexivity.
  destruct e; cbn; try reflexivity. apply Hhandler.
Qed.

Lemma get_writer_run (output_format : string) (output_file : option string) (c : ctx) :
  get_writer output_format output_file c =
    (Ok {| writer_format := output_format; writer_file := output_file |}, c,
     [MakeWriter {| writer_format := output_format; writer_file := output_file |}]).
Proof. destruct c. reflexivity. Qed.

Lemma prints_quiet (m : M unit) (c : ctx) :
  (∃ t, m c = (Ok tt, c, t) ∧ forallb is_secho t = true) →
  api_error (outcome (m c)) = false ∧ params_error (outcome (m c)) = false.
Proof. intros (t & -> & _). split; reflexivity. Qed.

(** No [APIErrorException] leaves the [try] block of [main]. *)
Lemma main_try_no_api_error (fuel : nat) (a : Cli.t) (c : ctx) :
  ensures (main_try fuel a) c (λ r _ _, api_error r = false).
Proof.
  unfold main_try. destruct (_ && _); [reflexivity|].
  apply ensures_bind. unfold ensures at 1. rewrite get_writer_run.
  cbn [outcome final trace fst snd].
  set (writer := {| writer_format := Cli.output_format a;
                    writer_file := Cli.output_file a |}).
  destruct (Cli.listcodes a).
  { unfold ensures. apply prints_quiet, list_team_codes_prints. }
  destruct (Cli.listleagues a).
  { unfold ensures. apply prints_quiet, list_league_codes_prints. }
  destruct (Cli.live a).
  { destruct (truthy_str (Cli.league a)).
    - eapply ensures_weaken; [apply get_live_league_ok|]. intros r c' t H. apply H.
    - eapply ensures_weaken; [apply get_live_scores_ok|]. intros r c' t H. apply H. }
  destruct (Cli.standings a).
  { destruct (negb _); [reflexivity|]. destruct (0 <? Cli.matchday a).
    - unfold get_matchday_standings. apply ensures_bind, ensures_lift.
      unfold dict_getitem. destruct (LEAGUE_IDS !! _); [|reflexivity].
      eapply ensures_weaken; [apply ensures_try_quiet; reflexivity|]. auto.
    - unfold get_standings. apply ensures_bind, ensures_lift.
      unfold dict_getitem. destruct (LEAGUE_IDS !! _); [|reflexivity].
      eapply ensures_weaken; [apply ensures_try_quiet; reflexivity|]. auto. }
  destruct (Cli.time a <? 1); [reflexivity|].
  destruct (truthy_str (Cli.team a)).
  { cbn zeta. destruct (Cli.lookup a).
    - unfold ensures. apply prints_quiet, map_team_id_prints.
    - destruct (Cli.players a).
      + unfold get_team_players.
        eapply ensures_weaken; [apply ensures_try_quiet; reflexivity|]. auto.
      + unfold get_team_scores. destruct (truthy_int _); [|reflexivity].
        eapply ensures_weaken; [apply ensures_try_quiet; reflexivity|]. auto. }
  unfold get_league_scores. destruct (truthy_str (Cli.league a)).
  - eapply ensures_weaken; [apply ensures_try_quiet; reflexivity|]. auto.
  - eapply ensures_weaken; [apply ensures_try_quiet; reflexivity|]. auto.
Qed.

(** X15.  Whatever the options, the tables and the services are, [main] does not
    end with one of the program's own exceptions.  No [APIErrorException]
    leaves its [try] block: the handler that provoked it has caught it.  An
    [IncorrectParametersException] of the [try] block is caught by [main],
    where the lookup of [e.message] raises: [main] then ends with
    [AttributeError] and adds nothing to what the [try] block did.  In every
    other case [main] ends as its [try] block does. *)
Theorem main_contains_own_exceptions (fuel : nat) (a : Cli.t) (c : ctx) :
  ensures (main fuel a) c (λ r _ _, api_error r = false ∧ params_error r = false) ∧
  api_error (outcome (main_try fuel a {| headers := Some (Cli.apikey a); sent := sent c |}))
    = false ∧
  main fuel a c =
    match main_try fuel a {| headers := Some (Cli.apikey a); sent := sent c |} with
    | (Raised (IncorrectParametersException _), c1, t) =>
        (Raised (AttributeError "message"), c1, t)
    | run => run
    end.
Proof.
  split; [|split].
  - unfold main. apply ensures_bind. unfold ensures at 1.
    cbn [set_headers outcome final trace fst snd].
    apply ensures_try_except_params.
    eapply ensures_weaken; [apply main_try_no_api_error|].
    intros r c' t Hapi. destruct r as [[]|e|]; [split; reflexivity| |split; reflexivity].
    destruct e; try discriminate; split; reflexivity.
  - apply (main_try_no_api_error fuel a {| headers := Some (Cli.apikey a); sent := sent c |}).
  - destruct (main_try fuel a {| headers := Some (Cli.apikey a); sent := sent c |})
      as [[r c1] t] eqn:Htry.
    destruct r as [[]|e|];
      try (unfold main; unfold mbind at 1; unfold M_bind at 1; unfold set_headers at 1;
           rewrite prefixed_nil, try_except_params_pass; rewrite Htry;
           [reflexivity | discriminate]).
    destruct e;
      try (unfold main; unfold mbind at 1; unfold M_bind at 1; unfold set_headers at 1;
           rewrite prefixed_nil, try_except_params_pass; rewrite Htry;
           [reflexivity | discriminate]).
    exact (main_params_report _ _ _ _ _ _ Htry).
Qed.

(** A live handler lets no [IncorrectParametersException] out. *)
Lemma live_not_params (fuel : nat) (a : Cli.t) (c : ctx) (message : string) :
  outcome ((if truthy_str (Cli.league a) then
              get_live_league fuel
                {| writer_format := Cli.output_format a; writer_file := Cli.output_file a |}
                (Cli.use12hour a) (default "" (Cli.league a)) (Cli.refresh a)
            else
              get_live_scores fuel
                {| writer_format := Cli.output_format a; writer_file := Cli.output_file a |}
                (Cli.use12hour a) (Cli.refresh a)) c)
    ≠ Raised (IncorrectParametersException message).
Proof.
  destruct (truthy_str (Cli.league a)).
  - pose proof (get_live_league_ok fuel
                  {| writer_format := Cli.output_format a;
                     writer_file := Cli.output_file a |}
                  (Cli.use12hour a) (default "" (Cli.league a)) (Cli.refresh a) c)
      as (_ & Hpar & _).
    intros Heq. rewrite Heq in Hpar. discriminate.
  - pose proof (get_live_scores_ok fuel
                  {| writer_format := Cli.output_format a;
                     writer_file := Cli.output_file a |}
                  (Cli.use12hour a) (Cli.refresh a) c) as (_ & Hpar & _).
    intros Heq. rewrite Heq in Hpar. discriminate.
Qed.

(** X16.  [--list] wins over every other option, and [--leagues] over every option
    but [--list]: once the output options are accepted, [main] builds the
    writer, prints the listing and is done, without a request and without a
    test of the time window, the league or the team. *)
Theorem listing_options_win (fuel : nat) (a : Cli.t) (c : ctx) :
  String.eqb (Cli.output_format a) "stdout" && truthy_str (Cli.output_file a) = false →
  (Cli.listcodes a = true →
     main fuel a c =
       prefixed
         [MakeWriter {| writer_format := Cli.output_format a;
                        writer_file := Cli.output_file a |}]
         (list_team_codes {| headers := Some (Cli.apikey a); sent := sent c |})) ∧
  (Cli.listcodes a = false → Cli.listleagues a = true →
     main fuel a c =
       prefixed
         [MakeWriter {| writer_format := Cli.output_format a;
                        writer_file := Cli.output_file a |}]
         (list_league_codes {| headers := Some (Cli.apikey a); sent := sent c |})) ∧
  (Cli.listcodes a = true ∨ Cli.listleagues a = true →
     requests (trace (main fuel a c)) = [] ∧ rendered (trace (main fuel a c)) = []).
Proof.
  intros Hout.
  assert (Hcodes : Cli.listcodes a = true →
     main fuel a c =
       prefixed
         [MakeWriter {| writer_format := Cli.output_format a;
                        writer_file := Cli.output_file a |}]
         (list_team_codes {| headers := Some (Cli.apikey a); sent := sent c |})).
  { intros Hlist. unfold main. unfold mbind at 1. unfold M_bind at 1.
    unfold set_headers at 1. rewrite prefixed_nil.
    assert (Htry : main_try fuel a {| headers := Some (Cli.apikey a); sent := sent c |} =
      prefixed
        [MakeWriter {| writer_format := Cli.output_format a;
                       writer_file := Cli.output_file a |}]
        (list_team_codes {| headers := Some (Cli.apikey a); sent := sent c |})).
    { unfold main_try. rewrite Hout, Hlist. unfold mbind, M_bind.
      rewrite get_writer_run. reflexivity. }
    rewrite try_except_params_pass; [exact Htry|].
    intros message. rewrite Htry.
    destruct (list_team_codes_prints {| headers := Some (Cli.apikey a); sent := sent c |})
      as (t & -> & _). discriminate. }
  assert (Hleagues : Cli.listcodes a = false → Cli.listleagues a = true →
     main fuel a c =
       prefixed
         [MakeWriter {| writer_format := Cli.output_format a;
                        writer_file := Cli.output_file a |}]
         (list_league_codes {| headers := Some (Cli.apikey a); sent := sent c |})).
  { intros Hnolist Hlist. unfold main. unfold mbind at 1. unfold M_bind at 1.
    unfold set_headers at 1. rewrite prefixed_nil.
    assert (Htry : main_try fuel a {| headers := Some (Cli.apikey a); sent := sent c |} =
      prefixed
        [MakeWriter {| writer_format := Cli.output_format a;
                       writer_file := Cli.output_file a |}]
        (list_league_codes {| headers := Some (Cli.apikey a); sent := sent c |})).
    { unfold main_try. rewrite Hout, Hnolist, Hlist. unfold mbind, M_bind.
      rewrite get_writer_run. reflexivity. }
    rewrite try_except_params_pass; [exact Htry|].
    intros message. rewrite Htry.
    destruct (list_league_codes_prints {| headers := Some (Cli.apikey a); sent := sent c |})
      as (t & -> & _). discriminate. }
  split; [exact Hcodes | split; [exact Hleagues|]].
  intros Hany. destruct (Cli.listcodes a) eqn:Hlist.
  - rewrite (Hcodes eq_refl).
    destruct (list_team_codes_prints {| headers := Some (Cli.apikey a); sent := sent c |})
      as (t & -> & Hp).
    apply prints_nothing_else in Hp as [Hreq Hren].
    rewrite trace_prefixed. cbn [trace snd]. rewrite requests_app, rendered_app, Hreq, Hren.
    split; reflexivity.
  - destruct Hany as [Hany|Hany]; [discriminate|]. rewrite (Hleagues eq_refl Hany).
    destruct (list_league_codes_prints {| headers := Some (Cli.apikey a); sent := sent c |})
      as (t & -> & Hp).
    apply prints_nothing_else in Hp as [Hreq Hren].
    rewrite trace_prefixed. cbn [trace snd]. rewrite requests_app, rendered_app, Hreq, Hren.
    split; reflexivity.
Qed.

(** X17.  [--live] wins over [--standings], [--time] and [--team]: without a listing
    option, [main] builds the writer and runs the live handler, the filtered
    one when a league is given, and nothing else; the time window is not
    tested and the statistics service is not asked. *)
Theorem live_option_wins (fuel : nat) (a : Cli.t) (c : ctx) :
  String.eqb (Cli.output_format a) "stdout" && truthy_str (Cli.output_file a) = false →
  Cli.listcodes a = false → Cli.listleagues a = false → Cli.live a = true →
  main fuel a c =
    prefixed
      [MakeWriter {| writer_format := Cli.output_format a;
                     writer_file := Cli.output_file a |}]
      ((if truthy_str (Cli.league a) then
          get_live_league fuel
            {| writer_format := Cli.output_format a; writer_file := Cli.output_file a |}
            (Cli.use12hour a) (default "" (Cli.league a)) (Cli.refresh a)
        else
          get_live_scores fuel
            {| writer_format := Cli.output_format a; writer_file := Cli.output_file a |}
            (Cli.use12hour a) (Cli.refresh a))
         {| headers := Some (Cli.apikey a); sent := sent c |}).
Proof.
  intros Hout Hcodes Hleagues Hlive.
  unfold main. unfold mbind at 1. unfold M_bind at 1. unfold set_headers at 1.
  rewrite prefixed_nil.
  match goal with
  | |- _ = ?rhs =>
      assert (Htry : main_try fuel a {| headers := Some (Cli.apikey a); sent := sent c |}
                     = rhs)
  end.
  { unfold main_try. rewrite Hout, Hcodes, Hleagues, Hlive. unfold mbind at 1.
    unfold M_bind at 1. rewrite get_writer_run.
    destruct (truthy_str (Cli.league a)); reflexivity. }
  rewrite try_except_params_pass; [exact Htry|].
  intros message. rewrite Htry. apply live_not_params.
Qed.

(** X18.  [--standings] without a league is refused by [main] itself, whatever
    the matchday is: once the writer is built the [try] block raises an
    [IncorrectParametersException] that asks for a league.  [main] catches it,
    and the lookup of [e.message] in line 432 then raises [AttributeError]:
    nothing is printed and nothing is sent. *)
Theorem standings_need_a_league (fuel : nat) (a : Cli.t) (c : ctx) :
  String.eqb (Cli.output_format a) "stdout" && truthy_str (Cli.output_file a) = false →
  Cli.listcodes a = false → Cli.listleagues a = false → Cli.live a = false →
  Cli.standings a = true →
  truthy_str (Cli.league a) = false →
  main_try fuel a {| headers := Some (Cli.apikey a); sent := sent c |} =
    (Raised (IncorrectParametersException
               "Please specify a league. Example --standings --league=EPL"),
     {| headers := Some (Cli.apikey a); sent := sent c |},
     [MakeWriter {| writer_format := Cli.output_format a;
                    writer_file := Cli.output_file a |}]) ∧
  main fuel a c =
    (Raised (AttributeError "message"),
     {| headers := Some (Cli.apikey a); sent := sent c |},
     [MakeWriter {| writer_format := Cli.output_format a;
                    writer_file := Cli.output_file a |}]).
Proof.
  intros Hout Hcodes Hleagues Hlive Hstandings Hleague.
  assert (Htry : main_try fuel a {| headers := Some (Cli.apikey a); sent := sent c |} =
    (Raised (IncorrectParametersException
               "Please specify a league. Example --standings --league=EPL"),
     {| headers := Some (Cli.apikey a); sent := sent c |},
     [MakeWriter {| writer_format := Cli.output_format a;
                    writer_file := Cli.output_file a |}])).
  { unfold main_try, mbind, M_bind.
    rewrite Hout, get_writer_run, Hcodes, Hleagues, Hlive, Hstandings, Hleague.
    reflexivity. }
  split; [exact Htry | exact (main_params_report _ _ _ _ _ _ Htry)].
Qed.

(** X19.  [--team] with [--lookup] prints the team's name and asks no service, also
    when [--players] is given with it; the time window must still be 1 or
    more, although the lookup does not use it. *)
Theorem lookup_wins_over_players (fuel : nat) (a : Cli.t) (c : ctx) (team : string) :
  String.eqb (Cli.output_format a) "stdout" && truthy_str (Cli.output_file a) = false →
  Cli.listcodes a = false → Cli.listleagues a = false → Cli.live a = false →
  Cli.standings a = false →
  1 ≤ Cli.time a →
  Cli.team a = Some team → team ≠ "" →
  Cli.lookup a = true →
  main fuel a c =
    prefixed
      [MakeWriter {| writer_format := Cli.output_format a;
                     writer_file := Cli.output_file a |}]
      (map_team_id team {| headers := Some (Cli.apikey a); sent := sent c |}) ∧
  requests (trace (main fuel a c)) = [].
Proof.
  intros Hout Hcodes Hleagues Hlive Hstandings Htime Hteam Hne Hlookup.
  apply Z.ltb_ge in Htime. apply String.eqb_neq in Hne.
  assert (Hrun : main fuel a c =
    prefixed
      [MakeWriter {| writer_format := Cli.output_format a;
                     writer_file := Cli.output_file a |}]
      (map_team_id team {| headers := Some (Cli.apikey a); sent := sent c |})).
  { unfold main. unfold mbind at 1. unfold M_bind at 1. unfold set_headers at 1.
    rewrite prefixed_nil.
    match goal with
    | |- _ = ?rhs =>
        assert (Htry : main_try fuel a {| headers := Some (Cli.apikey a); sent := sent c |}
                       = rhs)
    end.
    { unfold main_try. rewrite Hout, Hcodes, Hleagues, Hlive, Hstandings, Htime, Hteam.
      unfold truthy_str. rewrite Hne. cbn [negb default]. rewrite Hlookup.
      unfold mbind at 1. unfold M_bind at 1. rewrite get_writer_run. reflexivity. }
    rewrite try_except_params_pass; [exact Htry|].
    intros message. rewrite Htry.
    destruct (map_team_id_prints team {| headers := Some (Cli.apikey a); sent := sent c |})
      as (t & -> & _). discriminate. }
  split; [exact Hrun|]. rewrite Hrun.
  destruct (map_team_id_prints team {| headers := Some (Cli.apikey a); sent := sent c |})
    as (t & -> & Hp).
  apply prints_nothing_else in Hp as [Hreq _].
  rewrite trace_prefixed. cbn [trace snd]. rewrite requests_app, Hreq. reflexivity.
Qed.

End MainPaths.

(** [--list] given with [--live], [--standings] and [--time=0] lists the team
    codes. *)
Lemma listing_options_win_witness :
  @main sample_world 1 cli_list_and_more fresh_ctx =
    prefixed [MakeWriter sample_writer] (@list_team_codes sample_world sample_ctx) ∧
  requests (trace (@main sample_world 1 cli_list_and_more fresh_ctx)) = [].
Proof.
  destruct (@listing_options_win sample_world 1 cli_list_and_more fresh_ctx eq_refl)
    as (Hcodes & _ & Hquiet).
  split.
  - exact (Hcodes eq_refl).
  - exact (proj1 (Hquiet (or_introl eq_refl))).
Defined.

(** [--live --league=EPL] given with [--standings], [--time=0] and a team polls
    the live service. *)
Lemma live_option_wins_witness :
  @main sample_world 1 cli_live_and_more fresh_ctx =
    prefixed [MakeWriter sample_writer]
      (@get_live_league sample_world 1 sample_writer false "EPL" (-1) sample_ctx).
Proof.
  exact (@live_option_wins sample_world 1 cli_live_and_more fresh_ctx
           eq_refl eq_refl eq_refl eq_refl).
Defined.

(** [--standings --matchday=3] without [--league] is refused, and the report
    of the refusal fails. *)
Lemma standings_need_a_league_witness :
  @main_try sample_world 1 cli_standings_no_league sample_ctx =
    (Raised (IncorrectParametersException
               "Please specify a league. Example --standings --league=EPL"),
     sample_ctx, [MakeWriter sample_writer]) ∧
  @main sample_world 1 cli_standings_no_league fresh_ctx =
    (Raised (AttributeError "message"), sample_ctx, [MakeWriter sample_writer]).
Proof.
  exact (@standings_need_a_league sample_world 1 cli_standings_no_league fresh_ctx
           eq_refl eq_refl eq_refl eq_refl eq_refl eq_refl).
Defined.

(** [--team=AFC --lookup --players] prints the name of Arsenal. *)
Lemma lookup_wins_over_players_witness :
  @main sample_world 1 cli_lookup_and_players fresh_ctx =
    prefixed [MakeWriter sample_writer] (@map_team_id sample_world "AFC" sample_ctx) ∧
  requests (trace (@main sample_world 1 cli_lookup_and_players fresh_ctx)) = [].
Proof.
  apply (@lookup_wins_over_players sample_world 1 cli_lookup_and_players fresh_ctx "AFC");
    [reflexivity | reflexivity | reflexivity | reflexivity | reflexivity | discriminate
    | reflexivity | discriminate | reflexivity].
Defined.

(** ** Where the requests go *)

Section Routing.
Context `{W : World}.
#[local] Arguments _get : simpl never.
#[local] Arguments String.append : simpl never.
#[local] Arguments str_int : simpl never.

Ltac routed := unfold ensures, secho, emit, raise; cbn; repeat econstructor.

Lemma team_scores_routed (team : string) (time : Z) (writer : Writer)
    (show_upcoming use_12_hour_format : bool) (c : ctx) :
  ensures (get_team_scores team time writer show_upcoming use_12_hour_format) c
    (λ _ _ t, Forall (stats_request (headers c)) (requests t)).
Proof.
  unfold get_team_scores. destruct (truthy_int _); [|routed].
  apply ensures_try_except_api, ensures_bind, ensures_get.
  destruct (headers c) as [h|]; [|routed].
  destruct (by_status _) as [req|e|]; [|destruct e; routed|routed].
  apply ensures_bind, ensures_lift.
  destruct (json_of req) as [scores|e|]; [|destruct e; routed|routed].
  apply ensures_bind, ensures_lift.
  destruct (getitem scores "fixtures" ≫= len) as [k|e|]; [|destruct e; routed|routed].
  destruct (k =? 0); routed.
Qed.

Lemma league_scores_routed (league : option string) (time : Z) (writer : Writer)
    (show_upcoming use_12_hour_format : bool) (c : ctx) :
  ensures (get_league_scores league time writer show_upcoming use_12_hour_format) c
    (λ _ _ t, Forall (stats_request (headers c)) (requests t)).
Proof.
  unfold get_league_scores. destruct (truthy_str league).
  - apply ensures_try_except_api, ensures_bind, ensures_lift.
    destruct (dict_getitem _ _) as [league_id|e|]; [|destruct e; routed|routed].
    apply ensures_bind, ensures_get.
    destruct (headers c) as [h|]; [|routed].
    destruct (by_status _) as [req|e|]; [|destruct e; routed|routed].
    apply ensures_bind, ensures_lift.
    destruct (json_of req) as [fixtures_results|e|]; [|destruct e; routed|routed].
    apply ensures_bind, ensures_lift.
    destruct (getitem fixtures_results "fixtures" ≫= len) as [k|e|];
      [|destruct e; routed|routed].
    destruct (k =? 0); routed.
  - apply ensures_try_except_api, ensures_bind, ensures_get.
    destruct (headers c) as [h|]; [|routed].
    destruct (by_status _) as [req|e|]; [|destruct e; routed|routed].
    apply ensures_bind, ensures_lift.
    destruct (json_of req) as [fixtures_results|e|]; [|destruct e; routed|routed].
    routed.
Qed.

Lemma team_players_routed (team : string) (writer : Writer) (c : ctx) :
  ensures (get_team_players team writer) c
    (λ _ _ t, Forall (stats_request (headers c)) (requests t)).
Proof.
  unfold get_team_players.
  apply ensures_try_except_api, ensures_bind, ensures_get.
  destruct (headers c) as [h|]; [|routed].
  destruct (by_status _) as [req|e|]; [|destruct e; routed|routed].
  apply ensures_bind, ensures_lift.
  destruct (json_of req) as [players|e|]; [|destruct e; routed|routed].
  apply ensures_bind, ensures_lift.
  destruct (getitem players "count" ≫= int_of) as [k|e|]; [|destruct e; routed|routed].
  destruct (k =? 0); routed.
Qed.

Lemma standings_routed (league : string) (writer : Writer) (extended : bool) (c : ctx) :
  ensures (get_standings league writer extended) c
    (λ _ _ t, Forall (stats_request (headers c)) (requests t)).
Proof.
  unfold get_standings. apply ensures_bind, ensures_lift.
  destruct (dict_getitem _ _) as [league_id|e|]; [|routed|routed].
  apply ensures_try_except_api, ensures_bind, ensures_get.
  destruct (headers c) as [h|]; [|routed].
  destruct (by_status _) as [req|e|]; [|destruct e; routed|routed].
  apply ensures_bind, ensures_lift.
  destruct (json_of req) as [table|e|]; [|destruct e; routed|routed].
  destruct extended; routed.
Qed.

Lemma matchday_standings_routed (league : string) (writer : Writer) (extended : bool)
    (matchday : Z) (c : ctx) :
  ensures (get_matchday_standings league writer extended matchday) c
    (λ _ _ t, Forall (stats_request (headers c)) (requests t)).
Proof.
  unfold get_matchday_standings. apply ensures_bind, ensures_lift.
  destruct (dict_getitem _ _) as [league_id|e|]; [|routed|routed].
  apply ensures_try_except_api, ensures_bind, ensures_get.
  destruct (headers c) as [h|]; [|routed].
  destruct (by_status _) as [req|e|]; [|destruct e; routed|routed].
  apply ensures_bind, ensures_lift.
  destruct (json_of req) as [competition|e|]; [|destruct e; routed|routed].
  apply ensures_bind, ensures_lift.
  destruct (getitem competition "currentMatchday") as [current|e|];
    [|destruct e; routed|routed].
  apply ensures_bind, ensures_lift.
  destruct (lt_int current matchday) as [[|]|e|]; [routed| |destruct e; routed|routed].
  apply ensures_bind, ensures_get. cbn [headers sent].
  destruct (by_status _) as [table_req|e|]; [|destruct e; routed|routed].
  apply ensures_bind, ensures_lift.
  destruct (json_of table_req) as [table|e|]; [|destruct e; routed|routed].
  destruct extended; routed.
Qed.

(** X20.  Every request that [main] sends goes either to the live service, without a
    token, or to a path of the statistics service, with the API key [main] was
    given: the key is sent nowhere else, and no request goes without it to the
    statistics service. *)
Theorem main_routes_its_requests (fuel : nat) (a : Cli.t) (c : ctx) :
  ensures (main fuel a) c (λ _ _ t,
    Forall (λ e, e = Request LIVE_URL None ∨ stats_request (Some (Cli.apikey a)) e)
      (requests t)).
Proof.
  assert (Hlive : ∀ u r t, live_run_ok u r t →
            Forall (λ e, e = Request LIVE_URL None ∨ stats_request (Some (Cli.apikey a)) e)
              (requests ([] ++ [MakeWriter {| writer_format := Cli.output_format a;
                                             writer_file := Cli.output_file a |}] ++ t))).
  { intros u r t (_ & _ & Hreq & _). cbn. eapply Forall_impl; [exact Hreq|].
    intros e He. left. exact He. }
  assert (Hstats : ∀ t, Forall (stats_request (Some (Cli.apikey a))) (requests t) →
            Forall (λ e, e = Request LIVE_URL None ∨ stats_request (Some (Cli.apikey a)) e)
              (requests ([] ++ [MakeWriter {| writer_format := Cli.output_format a;
                                             writer_file := Cli.output_file a |}] ++ t))).
  { intros t Hreq. cbn. eapply Forall_impl; [exact Hreq|]. intros e He. right. exact He. }
  assert (Hprints : ∀ (m : M unit) c',
            (∃ t, m c' = (Ok tt, c', t) ∧ forallb is_secho t = true) →
            Forall (λ e, e = Request LIVE_URL None ∨ stats_request (Some (Cli.apikey a)) e)
              (requests ([] ++ [MakeWriter {| writer_format := Cli.output_format a;
                                             writer_file := Cli.output_file a |}]
                            ++ trace (m c')))).
  { intros m c' (t & -> & Hp). apply prints_nothing_else in Hp as [Hreq _].
    cbn. unfold requests in Hreq. rewrite Hreq. constructor. }
  unfold main. apply ensures_bind. unfold ensures at 1.
  cbn [set_headers outcome final trace fst snd].
  apply ensures_try_except_params.
  set (c' := {| headers := Some (Cli.apikey a); sent := sent c |}).
  assert (Hgoal : ensures (main_try fuel a) c' (λ _ _ t,
            Forall (λ e, e = Request LIVE_URL None ∨ stats_request (Some (Cli.apikey a)) e)
              (requests ([] ++ t)))).
  { unfold main_try. destruct (_ && _); [constructor|].
    apply ensures_bind. unfold ensures at 1. rewrite get_writer_run.
    cbn [outcome final trace fst snd].
    destruct (Cli.listcodes a).
    { apply Hprints, list_team_codes_prints. }
    destruct (Cli.listleagues a).
    { apply Hprints, list_league_codes_prints. }
    destruct (Cli.live a).
    { destruct (truthy_str (Cli.league a)).
      - eapply ensures_weaken; [apply get_live_league_ok|]. intros r c1 t. apply Hlive.
      - eapply ensures_weaken; [apply get_live_scores_ok|]. intros r c1 t. apply Hlive. }
    destruct (Cli.standings a).
    { destruct (negb _); [constructor|]. destruct (0 <? Cli.matchday a).
      - eapply ensures_weaken; [apply matchday_standings_routed|].
        intros r c1 t. apply Hstats.
      - eapply ensures_weaken; [apply standings_routed|]. intros r c1 t. apply Hstats. }
    destruct (Cli.time a <? 1); [constructor|].
    destruct (truthy_str (Cli.team a)).
    { cbn zeta. destruct (Cli.lookup a).
      - apply Hprints, map_team_id_prints.
      - destruct (Cli.players a).
        + eapply ensures_weaken; [apply team_players_routed|].
          intros r c1 t. apply Hstats.
        + eapply ensures_weaken; [apply team_scores_routed|].
          intros r c1 t. apply Hstats. }
    eapply ensures_weaken; [apply league_scores_routed|]. intros r c1 t. apply Hstats. }
  eapply ensures_weaken; [exact Hgoal|].
  intros r c1 t Ht. destruct r as [[]|e|]; try exact Ht.
  destruct e; try exact Ht.
  unfold ensures, secho, emit. cbn [outcome final trace fst snd].
  rewrite app_nil_l in Ht |- *. rewrite requests_app, app_nil_r. exact Ht.
Qed.

End Routing.

(** ** The listing of the team codes *)

(** The order of strings. *)
Section Orders.

Lemma ascii_compare_refl (a : ascii) : Ascii.compare a a = Eq.
Proof. unfold Ascii.compare. apply N.compare_refl. Qed.

Lemma compare_refl (s : string) : String.compare s s = Eq.
Proof.
  induction s as [|a s IH]; cbn; [reflexivity|].
  rewrite ascii_compare_refl. exact IH.
Qed.

Lemma compare_lt_trans (a b c : string) :
  String.compare a b = Lt → String.compare b c = Lt → String.compare a c = Lt.
Proof.
  revert b c. induction a as [|x a IH]; intros [|y b] [|z c]; cbn; try discriminate;
    try reflexivity.
  unfold Ascii.compare.
  destruct (N.compare_spec (N_of_ascii x) (N_of_ascii y)) as [Hxy|Hxy|Hxy];
    destruct (N.compare_spec (N_of_ascii y) (N_of_ascii z)) as [Hyz|Hyz|Hyz];
    try discriminate; intros Hab Hbc.
  - rewrite Hxy, Hyz, N.compare_refl. eapply IH; eassumption.
  - rewrite Hxy. apply N.compare_lt_iff in Hyz. rewrite Hyz. reflexivity.
  - rewrite <- Hyz. apply N.compare_lt_iff in Hxy. rewrite Hxy. reflexivity.
  - assert (H : (N_of_ascii x < N_of_ascii z)%N) by lia.
    apply N.compare_lt_iff in H. rewrite H. reflexivity.
Qed.

Lemma str_le_cases (a b : string) :
  str_le a b = true ↔ a = b ∨ String.compare a b = Lt.
Proof.
  unfold str_le. destruct (String.compare a b) eqn:H.
  - apply String.compare_eq_iff in H. tauto.
  - tauto.
  - split; [discriminate|]. intros [->|]; [|discriminate].
    rewrite compare_refl in H. discriminate.
Qed.

Lemma str_le_trans (a b c : string) :
  str_le a b = true → str_le b c = true → str_le a c = true.
Proof.
  rewrite !str_le_cases. intros [->|Hab] [->|Hbc]; auto.
  right. eapply compare_lt_trans; eassumption.
Qed.

Lemma str_le_total (a b : string) : str_le a b = true ∨ str_le b a = true.
Proof.
  unfold str_le. rewrite (String.compare_antisym a b).
  destruct (String.compare b a); cbn; auto.
Qed.

End Orders.

(** [sorted] gives a sorted rearrangement of its list. *)
Section Sorting.
Context {A : Type} (le : A → A → bool).

Lemma insert_sorted_perm (x : A) (l : list A) : Permutation (insert_sorted le x l) (x :: l).
Proof.
  induction l as [|y l IH]; cbn; [reflexivity|].
  destruct (le x y); [reflexivity|].
  rewrite IH. apply perm_swap.
Qed.

Lemma sorted_perm (l : list A) : Permutation (sorted le l) l.
Proof.
  unfold sorted. induction l as [|x l IH]; cbn; [reflexivity|].
  rewrite insert_sorted_perm, IH. reflexivity.
Qed.

Hypothesis le_total : ∀ a b, le a b = true ∨ le b a = true.
Hypothesis le_trans : ∀ a b c, le a b = true → le b c = true → le a c = true.

Lemma insert_sorted_sorted (x : A) (l : list A) :
  StronglySorted (λ a b, le a b = true) l →
  StronglySorted (λ a b, le a b = true) (insert_sorted le x l).
Proof.
  induction 1 as [|y l Hsorted IH Hall]; cbn; [repeat constructor|].
  destruct (le x y) eqn:Hxy.
  - constructor; [constructor; assumption|].
    constructor; [exact Hxy|].
    eapply Forall_impl; [exact Hall|]. intros z Hz. eapply le_trans; eassumption.
  - constructor; [exact IH|].
    rewrite (insert_sorted_perm x l). constructor; [|exact Hall].
    destruct (le_total x y) as [H|H]; [congruence | exact H].
Qed.

Lemma sorted_sorted (l : list A) : StronglySorted (λ a b, le a b = true) (sorted le l).
Proof.
  unfold sorted. induction l as [|x l IH]; cbn; [constructor|].
  apply insert_sorted_sorted. exact IH.
Qed.

End Sorting.

(** A comprehension with a test keeps the order, and the elements that pass. *)
Section Lists.
Context {A : Type}.

Lemma filter_perm (p : A → bool) (l l' : list A) :
  Permutation l l' → Permutation (List.filter p l) (List.filter p l').
Proof.
  induction 1 as [|x l l' _ IH|x y l|l l' l'' _ IH1 _ IH2]; cbn.
  - reflexivity.
  - destruct (p x); [constructor|]; exact IH.
  - destruct (p x), (p y); try reflexivity. apply perm_swap.
  - etransitivity; eassumption.
Qed.

Lemma filter_twice (p q : A → bool) (l : list A) :
  List.filter p (List.filter q l) = List.filter (λ x, q x && p x) l.
Proof.
  induction l as [|x l IH]; cbn; [reflexivity|].
  destruct (q x); cbn; [destruct (p x)|]; rewrite IH; reflexivity.
Qed.

Lemma filter_all (p : A → bool) (l : list A) : Forall (λ x, p x = true) (List.filter p l).
Proof.
  induction l as [|x l IH]; cbn; [constructor|].
  destruct (p x) eqn:Hp; [constructor; assumption | exact IH].
Qed.

Lemma filter_keeps_all (P : A → Prop) (p : A → bool) (l : list A) :
  Forall P l → Forall P (List.filter p l).
Proof.
  induction 1 as [|x l Hx _ IH]; cbn; [constructor|].
  destruct (p x); [constructor; assumption | exact IH].
Qed.

Lemma filter_strongly_sorted (R : A → A → Prop) (p : A → bool) (l : list A) :
  StronglySorted R l → StronglySorted R (List.filter p l).
Proof.
  induction 1 as [|x l _ IH Hall]; cbn; [constructor|].
  destruct (p x); [|exact IH]. constructor; [exact IH|].
  apply filter_keeps_all. exact Hall.
Qed.

(** A sorted list is sorted for any relation that agrees on its elements. *)
Lemma strongly_sorted_among (R R' : A → A → Prop) (P : A → Prop) (l : list A) :
  (∀ a b, P a → P b → R a b → R' a b) →
  Forall P l → StronglySorted R l → StronglySorted R' l.
Proof.
  intros Hagree Hall Hsorted. induction Hsorted as [|x l _ IH Hx]; [constructor|].
  inversion Hall as [|? ? HPx HPl]; subst. constructor; [apply IH; exact HPl|].
  rewrite List.Forall_forall in *. intros y Hy. apply Hagree; auto.
Qed.

End Lists.

Section Listing.
Context `{W : World}.
#[local] Arguments String.append : simpl never.

Lemma for_run_flat {A : Type} (items : list A) (body : A → M unit) (g : A → list event) :
  (∀ item c, body item c = (Ok tt, c, g item)) →
  ∀ c, for_ items body c = (Ok tt, c, flat_map g items).
Proof.
  intros Hbody. induction items as [|item items IH]; intros c; cbn [for_ flat_map].
  - reflexivity.
  - unfold mbind, M_bind. rewrite Hbody, IH. reflexivity.
Qed.

Lemma flat_map_optional {A B : Type} (p : A → bool) (f : A → B) (l : list A) :
  flat_map (λ x, if p x then [f x] else []) l = map f (List.filter p l).
Proof.
  induction l as [|x l IH]; cbn; [reflexivity|].
  destruct (p x); cbn; rewrite IH; reflexivity.
Qed.

Lemma team_key_le_total (a b : team) : team_key_le a b = true ∨ team_key_le b a = true.
Proof.
  unfold team_key_le.
  rewrite (String.compare_antisym (team_league_name a) (team_league_name b)).
  destruct (String.compare (team_league_name b) (team_league_name a)); cbn; auto.
  apply str_le_total.
Qed.

Lemma team_key_le_trans (a b c : team) :
  team_key_le a b = true → team_key_le b c = true → team_key_le a c = true.
Proof.
  unfold team_key_le.
  destruct (String.compare (team_league_name a) (team_league_name b)) eqn:Hab;
    try discriminate;
    destruct (String.compare (team_league_name b) (team_league_name c)) eqn:Hbc;
    try discriminate; intros H1 H2.
  - apply String.compare_eq_iff in Hab, Hbc. rewrite Hab, Hbc, compare_refl.
    eapply str_le_trans; eassumption.
  - apply String.compare_eq_iff in Hab. rewrite Hab, Hbc. reflexivity.
  - apply String.compare_eq_iff in Hbc. rewrite <- Hbc, Hab. reflexivity.
  - rewrite (compare_lt_trans _ _ _ Hab Hbc). reflexivity.
Qed.

Lemma sorted_distinct_ascending (l : list string) :
  StronglySorted (λ a b, str_le a b = true) l → NoDup l →
  StronglySorted (λ a b, String.compare a b = Lt) l.
Proof.
  induction 1 as [|x l _ IH Hall]; intros Hnodup; [constructor|].
  apply NoDup_cons in Hnodup as [Hx Hnodup]. constructor; [apply IH; exact Hnodup|].
  rewrite List.Forall_forall in *. intros y Hy.
  destruct (proj1 (str_le_cases x y) (Hall y Hy)) as [->|Hlt]; [|exact Hlt].
  apply list_elem_of_In in Hy. contradiction.
Qed.

(** X26.  [list_team_codes] asks no service and never fails: it prints one
    block for each league name of the team table, the names once each and in
    ascending order; a block is the league name, then one line [code: name]
    for each team of that league whose code is not [null], every such team
    once and the lines in ascending order of the code, then an empty line. *)
Theorem list_team_codes_listing (c : ctx) :
  ∃ (leaguenames : list string) (teams_of : string → list team),
    list_team_codes c =
      (Ok tt, c,
       flat_map (λ league,
                   Secho league true
                   :: map (λ team, Secho (team_code team +:+ ": " +:+ team_name team) true)
                        (teams_of league)
                   ++ [Secho "" true])
         leaguenames) ∧
    StronglySorted (λ a b, String.compare a b = Lt) leaguenames ∧
    (∀ league,
       In league leaguenames ↔ ∃ team, In team TEAM_DATA ∧ team_league_name team = league) ∧
    (∀ league,
       Permutation (teams_of league)
         (List.filter (λ team, String.eqb (team_league_name team) league
                                 && negb (String.eqb (team_code team) "null"))
            TEAM_DATA) ∧
       StronglySorted (λ a b, str_le (team_code a) (team_code b) = true)
         (teams_of league)).
Proof.
  set (cleanlist := sorted team_key_le TEAM_DATA).
  set (nonnull := λ team, negb (String.eqb (team_code team) "null")).
  exists (sorted str_le (remove_dups (map team_league_name cleanlist))),
         (λ league, List.filter nonnull
                      (List.filter (λ team, String.eqb (team_league_name team) league)
                         cleanlist)).
  assert (Hclean : Permutation cleanlist TEAM_DATA) by apply sorted_perm.
  split; [|split; [|split]].
  - unfold list_team_codes. fold cleanlist. apply for_run_flat. intros league c'.
    unfold mbind, M_bind. cbn [secho emit prefixed fst snd].
    rewrite (for_run_flat _ _
               (λ team, if nonnull team
                        then [Secho (team_code team +:+ ": " +:+ team_name team) true]
                        else [])).
    + cbn [prefixed fst snd app]. rewrite flat_map_optional. reflexivity.
    + intros team c''. unfold nonnull. destruct (negb _); reflexivity.
  - apply sorted_distinct_ascending.
    + apply sorted_sorted; [apply str_le_total | apply str_le_trans].
    + rewrite sorted_perm. apply NoDup_remove_dups.
  - intros league. rewrite (Permutation_in' eq_refl (sorted_perm str_le _)).
    rewrite <- list_elem_of_In, elem_of_remove_dups, list_elem_of_In, in_map_iff.
    split.
    + intros (team & Hname & Hin). exists team. split; [|exact Hname].
      eapply Permutation_in; [exact Hclean | exact Hin].
    + intros (team & Hin & Hname). exists team. split; [exact Hname|].
      eapply Permutation_in; [symmetry; exact Hclean | exact Hin].
  - intros league. split.
    + rewrite filter_twice. apply filter_perm. exact Hclean.
    + apply filter_strongly_sorted.
      apply (strongly_sorted_among (λ a b, team_key_le a b = true) _
               (λ team, String.eqb (team_league_name team) league = true)).
      * intros a b Ha Hb. apply String.eqb_eq in Ha, Hb. unfold team_key_le.
        rewrite Ha, Hb, compare_refl. auto.
      * apply filter_all.
      * apply filter_strongly_sorted, sorted_sorted;
          [apply team_key_le_total | apply team_key_le_trans].
Qed.

End Listing.

(** ** The API key: the prompt and the configuration file *)

Section KeyPrompt.
Import Credentials.
Context `{T : Terminal}.
#[local] Arguments String.append : simpl never.

Lemma later_0 (st : os) : later 0 st = st.
Proof. destruct st. unfold later. cbn. rewrite Nat.add_0_r. reflexivity. Qed.

Lemma later_answered (n : nat) (st : os) : later n (answered st) = later (S n) st.
Proof. unfold later, answered. cbn. f_equal. lia. Qed.

Lemma answered_later (st : os) : answered st = later 1 st.
Proof. unfold later, answered. cbn. f_equal. lia. Qed.

Lemma ask_key_refused (fuel : nat) (st : os) (s : string) :
  typed (asked st) = Some s → acceptable s = false →
  ask_key (S fuel) st =
    let '(r, st', out) := ask_key fuel (answered st) in
    (r, st', Prompt "Enter API key" :: Echo "Invalid API key" :: out).
Proof.
  intros Htyped Hbad. cbn [ask_key]. rewrite Htyped.
  unfold acceptable in Hbad. destruct (len_str s =? 32); [|reflexivity].
  cbn in Hbad. rewrite Hbad. reflexivity.
Qed.

(** The loop takes the first acceptable answer. *)
Lemma ask_key_first_good (k : nat) :
  ∀ (fuel : nat) (st : os) (key : string),
    (k < fuel)%nat →
    (∀ j, (j < k)%nat → ∃ s, typed (asked st + j) = Some s ∧ acceptable s = false) →
    typed (asked st + k) = Some key → acceptable key = true →
    ask_key fuel st =
      (Returns key, later (S k) st, refusals k ++ [Prompt "Enter API key"]).
Proof.
  induction k as [|k IH]; intros fuel st key Hfuel Hbad Hkey Hgood;
    destruct fuel as [|fuel]; try lia.
  - rewrite Nat.add_0_r in Hkey. cbn [ask_key]. rewrite Hkey.
    unfold acceptable in Hgood. apply andb_prop in Hgood as [-> ->].
    rewrite answered_later. reflexivity.
  - destruct (Hbad 0%nat ltac:(lia)) as (s & Hs & Hrefused).
    rewrite Nat.add_0_r in Hs. rewrite (ask_key_refused _ _ _ Hs Hrefused).
    rewrite (IH fuel (answered st) key).
    + rewrite later_answered. reflexivity.
    + lia.
    + intros j Hj. destruct (Hbad (S j) ltac:(lia)) as (s' & Hs' & Hrefused').
      exists s'. split; [|exact Hrefused'].
      cbn [answered asked]. rewrite <- Hs'. f_equal. lia.
    + cbn [answered asked]. rewrite <- Hkey. f_equal. lia.
    + exact Hgood.
Qed.

(** The loop ends where the prompt is interrupted. *)
Lemma ask_key_interrupted (k : nat) :
  ∀ (fuel : nat) (st : os),
    (k < fuel)%nat →
    (∀ j, (j < k)%nat → ∃ s, typed (asked st + j) = Some s ∧ acceptable s = false) →
    typed (asked st + k) = None →
    ask_key fuel st = (Aborts, later (S k) st, refusals k ++ [Prompt "Enter API key"]).
Proof.
  induction k as [|k IH]; intros fuel st Hfuel Hbad Hleft;
    destruct fuel as [|fuel]; try lia.
  - rewrite Nat.add_0_r in Hleft. cbn [ask_key]. rewrite Hleft.
    rewrite answered_later. reflexivity.
  - destruct (Hbad 0%nat ltac:(lia)) as (s & Hs & Hrefused).
    rewrite Nat.add_0_r in Hs. rewrite (ask_key_refused _ _ _ Hs Hrefused).
    rewrite (IH fuel (answered st)).
    + rewrite later_answered. reflexivity.
    + lia.
    + intros j Hj. destruct (Hbad (S j) ltac:(lia)) as (s' & Hs' & Hrefused').
      exists s'. split; [|exact Hrefused'].
      cbn [answered asked]. rewrite <- Hs'. f_equal. lia.
    + cbn [answered asked]. rewrite <- Hleft. f_equal. lia.
Qed.

(** Every run of the loop: it changes nothing but the number of answers taken,
    never exits, and what it returns is an acceptable answer, the last one it
    took. *)
Lemma ask_key_every_run (fuel : nat) :
  ∀ st : os,
    let '(r, st', out) := ask_key fuel st in
    (∃ n, st' = later n st ∧ (n ≤ fuel)%nat ∧
       match r with
       | Returns key =>
           ∃ k, n = S k ∧ typed (asked st + k) = Some key ∧ acceptable key = true
       | Aborts => ∃ k, n = S k ∧ typed (asked st + k) = None
       | Exits _ => False
       | Unfinished => n = fuel
       end).
Proof.
  induction fuel as [|fuel IH]; intros st; cbn [ask_key].
  - exists 0%nat. rewrite later_0. auto.
  - assert (Hnext :
      let '(r, st', out) :=
        (let '(r, st', out) := ask_key fuel (answered st) in
         (r, st', Prompt "Enter API key" :: Echo "Invalid API key" :: out)) in
      ∃ n, st' = later n st ∧ (n ≤ S fuel)%nat ∧
        match r with
        | Returns key =>
            ∃ k, n = S k ∧ typed (asked st + k) = Some key ∧ acceptable key = true
        | Aborts => ∃ k, n = S k ∧ typed (asked st + k) = None
        | Exits _ => False
        | Unfinished => n = S fuel
        end).
    { specialize (IH (answered st)).
      destruct (ask_key fuel (answered st)) as [[r st'] out].
      destruct IH as (n & -> & Hn & Hr). exists (S n).
      split; [apply later_answered|]. split; [lia|].
      destruct r as [key| | |].
      - destruct Hr as (k & -> & Hkey & Hgood). exists (S k).
        split; [reflexivity|]. split; [|exact Hgood].
        cbn [answered asked] in Hkey. rewrite <- Hkey. f_equal. lia.
      - destruct Hr as (k & -> & Hleft). exists (S k). split; [reflexivity|].
        cbn [answered asked] in Hleft. rewrite <- Hleft. f_equal. lia.
      - exact Hr.
      - lia. }
    destruct (typed (asked st)) as [confkey|] eqn:Htyped.
    + destruct (len_str confkey =? 32) eqn:Hlen; [|exact Hnext].
      destruct (hexadecimal confkey) eqn:Hhex; [|exact Hnext].
      exists 1%nat. split; [apply answered_later|]. split; [lia|].
      exists 0%nat. rewrite Nat.add_0_r. split; [reflexivity|].
      split; [exact Htyped|]. unfold acceptable. rewrite Hlen, Hhex. reflexivity.
    + exists 1%nat. split; [apply answered_later|]. split; [lia|].
      exists 0%nat. rewrite Nat.add_0_r. auto.
Qed.

Lemma acceptable_not_empty (key : string) : acceptable key = true → key ≠ "".
Proof. intros Hgood ->. discriminate. Qed.

(** X21.  [get_input_key] returns the first answer that has 32 characters and
    that [int(., 16)] accepts: after its two opening lines it prompts again,
    with [Invalid API key], for each answer it refuses, and takes no answer
    after the one it returns. *)
Theorem get_input_key_takes_first_good_answer (k fuel : nat) (st : os) (key : string) :
  (k < fuel)%nat →
  (∀ j, (j < k)%nat → ∃ s, typed (asked st + j) = Some s ∧ acceptable s = false) →
  typed (asked st + k) = Some key → acceptable key = true →
  get_input_key fuel st =
    (Returns key, later (S k) st, key_notice ++ refusals k ++ [Prompt "Enter API key"]).
Proof.
  intros Hfuel Hbad Hkey Hgood. unfold get_input_key.
  rewrite (ask_key_first_good k fuel st key Hfuel Hbad Hkey Hgood). reflexivity.
Qed.

(** X22.  Whatever is typed, a key that [get_input_key] returns has 32
    characters and is accepted by [int(., 16)], and it is the last answer
    taken; the function never exits the program, and leaves the environment,
    the configuration file and the global token as they are. *)
Theorem get_input_key_only_returns_good_keys (fuel : nat) (st : os) :
  let '(r, st', out) := get_input_key fuel st in
  environ st' = environ st ∧ config st' = config st ∧ api_token st' = api_token st ∧
  match r with
  | Returns key =>
      len_str key = 32 ∧ hexadecimal key = true ∧
      ∃ k, asked st' = S (asked st + k) ∧ typed (asked st + k) = Some key
  | Exits _ => False
  | _ => True
  end.
Proof.
  unfold get_input_key. pose proof (ask_key_every_run fuel st) as Hrun.
  destruct (ask_key fuel st) as [[r st'] out].
  destruct Hrun as (n & -> & _ & Hr). cbn [later environ config api_token asked].
  repeat split. destruct r as [key| | |]; auto.
  destruct Hr as (k & -> & Hkey & Hgood).
  unfold acceptable in Hgood. apply andb_prop in Hgood as [Hlen Hhex].
  apply Z.eqb_eq in Hlen. repeat split; auto. exists k. split; [lia | exact Hkey].
Qed.

Lemma use_key_good (key : string) (st : os) (out : list output) :
  key ≠ "" → use_key key st out = (Returns key, set_api_token key st, out).
Proof.
  intros Hkey. unfold use_key.
  destruct (String.eqb_spec key ""); [contradiction | reflexivity].
Qed.

(** A second call, once a key is in the file or in the environment. *)
Lemma load_config_key_again (fuel : nat) (st : os) (key : string) :
  api_token st = Some key →
  environ st = Some key ∨ (environ st = None ∧ config st = Some key ∧ key ≠ "") →
  load_config_key fuel st = (Returns key, st, []).
Proof.
  intros Htoken Hfrom. unfold load_config_key.
  assert (Hsame : set_api_token key st = st).
  { destruct st. cbn in Htoken. subst. reflexivity. }
  destruct Hfrom as [-> | (-> & -> & Hkey)].
  - rewrite Hsame. reflexivity.
  - rewrite (use_key_good _ _ _ Hkey), Hsame. reflexivity.
Qed.

(** X23.  With no variable in the environment and no configuration file,
    [load_config_key] returns the first acceptable answer and leaves it in the
    file and in the global token; called again, it returns the same key from
    the file, asks nothing and prints nothing. *)
Theorem typed_key_is_stored_and_read_back (k fuel : nat) (st : os) (key : string) :
  environ st = None → config st = None →
  (k < fuel)%nat →
  (∀ j, (j < k)%nat → ∃ s, typed (asked st + j) = Some s ∧ acceptable s = false) →
  typed (asked st + k) = Some key → acceptable key = true →
  ∃ st',
    load_config_key fuel st =
      (Returns key, st', key_notice ++ refusals k ++ [Prompt "Enter API key"]) ∧
    config st' = Some key ∧ api_token st' = Some key ∧ environ st' = None ∧
    asked st' = (asked st + S k)%nat ∧
    ∀ fuel', load_config_key fuel' st' = (Returns key, st', []).
Proof.
  intros Henv Hfile Hfuel Hbad Hkey Hgood.
  exists (set_api_token key (set_config (Some key) (later (S k) (set_config (Some "") st)))).
  assert (Hnot : key ≠ "") by (apply acceptable_not_empty; exact Hgood).
  split; [|repeat split; try reflexivity; try exact Henv].
  - unfold load_config_key. rewrite Henv, Hfile. unfold get_input_key.
    rewrite (ask_key_first_good k fuel (set_config (Some "") st) key Hfuel Hbad Hkey Hgood).
    rewrite (use_key_good _ _ _ Hnot). reflexivity.
  - intros fuel'. apply load_config_key_again; [reflexivity|].
    right. repeat split; auto.
Qed.

(** X24.  With no variable in the environment and no configuration file, a
    prompt that is interrupted leaves an empty configuration file behind; the
    next call then asks nothing: it removes the file, prints that no token was
    detected and exits with status 1. *)
Theorem interrupted_prompt_leaves_empty_file (k fuel : nat) (st : os) :
  environ st = None → config st = None →
  (k < fuel)%nat →
  (∀ j, (j < k)%nat → ∃ s, typed (asked st + j) = Some s ∧ acceptable s = false) →
  typed (asked st + k) = None →
  ∃ st',
    load_config_key fuel st =
      (Aborts, st', key_notice ++ refusals k ++ [Prompt "Enter API key"]) ∧
    config st' = Some "" ∧ api_token st' = api_token st ∧
    ∀ fuel',
      load_config_key fuel' st' = (Exits 1, later (S k) st, no_token_notice).
Proof.
  intros Henv Hfile Hfuel Hbad Hleft.
  exists (later (S k) (set_config (Some "") st)).
  split; [|repeat split].
  - unfold load_config_key. rewrite Henv, Hfile. unfold get_input_key.
    rewrite (ask_key_interrupted k fuel (set_config (Some "") st) Hfuel Hbad Hleft).
    reflexivity.
  - intros fuel'. unfold load_config_key. cbn [later set_config environ config].
    rewrite Henv. unfold use_key. cbn [String.eqb negb app].
    unfold later, set_config. cbn. rewrite Hfile. reflexivity.
Qed.

(** X25.  Whenever [load_config_key] returns a key, from the environment, from
    the file or from the prompt, the global token holds it, the environment
    is as before, and a further call returns the same key without asking or
    printing anything and without changing anything. *)
Theorem load_config_key_settles (fuel : nat) (st : os) :
  let '(r, st', out) := load_config_key fuel st in
  environ st' = environ st ∧
  match r with
  | Returns key =>
      api_token st' = Some key ∧
      ∀ fuel', load_config_key fuel' st' = (Returns key, st', [])
  | _ => True
  end.
Proof.
  unfold load_config_key.
  destruct (environ st) as [token|] eqn:Henv.
  - split; [exact Henv|]. split; [reflexivity|].
    intros fuel'. apply load_config_key_again; [reflexivity | left; exact Henv].
  - assert (Huse : ∀ key st0 out, environ st0 = None → config st0 = Some key →
              let '(r, st', out') := use_key key st0 out in
              environ st' = None ∧
              match r with
              | Returns key' =>
                  api_token st' = Some key' ∧
                  ∀ fuel', load_config_key fuel' st' = (Returns key', st', [])
              | _ => True
              end).
    { intros key st0 out Henv0 Hfile0. unfold use_key.
      destruct (String.eqb_spec key "") as [->|Hkey]; cbn [negb].
      - split; [exact Henv0 | exact I].
      - split; [exact Henv0|]. split; [reflexivity|].
        intros fuel'. apply load_config_key_again; [reflexivity|].
        right. repeat split; auto. }
    destruct (config st) as [key|] eqn:Hfile.
    + apply Huse; assumption.
    + unfold get_input_key.
      pose proof (ask_key_every_run fuel (set_config (Some "") st)) as Hrun.
      destruct (ask_key fuel (set_config (Some "") st)) as [[r st'] out].
      destruct Hrun as (n & -> & _ & Hr).
      destruct r as [key| | |]; try (split; [exact Henv | exact I]).
      apply Huse; [exact Henv | reflexivity].
Qed.

End KeyPrompt.

(** At the sample terminal a first run refuses the word and the string that is
    no number, and takes the key typed third. *)
Lemma get_input_key_takes_first_good_answer_witness :
  Credentials.get_input_key (T := Credentials.sample_terminal) 3 Credentials.first_run =
    (Credentials.Returns "0123456789abcdef0123456789abcdef",
     later 3 Credentials.first_run,
     key_notice ++ refusals 2 ++ [Credentials.Prompt "Enter API key"]).
Proof.
  apply (@get_input_key_takes_first_good_answer Credentials.sample_terminal 2 3
           Credentials.first_run "0123456789abcdef0123456789abcdef").
  - lia.
  - intros j Hj. assert (Hj' : j = 0%nat ∨ j = 1%nat) by lia.
    destruct Hj' as [-> | ->]; eexists; split; reflexivity.
  - reflexivity.
  - reflexivity.
Defined.

(** At the sample terminal the key typed third ends up in the file, and the
    next call reads it there. *)
Lemma typed_key_is_stored_and_read_back_witness :
  ∃ st',
    Credentials.load_config_key (T := Credentials.sample_terminal) 3
        Credentials.first_run =
      (Credentials.Returns "0123456789abcdef0123456789abcdef", st',
       key_notice ++ refusals 2 ++ [Credentials.Prompt "Enter API key"]) ∧
    Credentials.config st' = Some "0123456789abcdef0123456789abcdef" ∧
    Credentials.api_token st' = Some "0123456789abcdef0123456789abcdef" ∧
    Credentials.environ st' = None ∧
    Credentials.asked st' = 3%nat ∧
    ∀ fuel',
      Credentials.load_config_key (T := Credentials.sample_terminal) fuel' st' =
        (Credentials.Returns "0123456789abcdef0123456789abcdef", st', []).
Proof.
  apply (@typed_key_is_stored_and_read_back Credentials.sample_terminal 2 3
           Credentials.first_run "0123456789abcdef0123456789abcdef").
  - reflexivity.
  - reflexivity.
  - lia.
  - intros j Hj. assert (Hj' : j = 0%nat ∨ j = 1%nat) by lia.
    destruct Hj' as [-> | ->]; eexists; split; reflexivity.
  - reflexivity.
  - reflexivity.
Defined.

(** Someone who types a word and leaves at the second prompt has an empty
    file, and the next call exits. *)
Lemma interrupted_prompt_leaves_empty_file_witness :
  ∃ st',
    Credentials.load_config_key (T := Credentials.leaving_terminal) 2
        Credentials.first_run =
      (Credentials.Aborts, st',
       key_notice ++ refusals 1 ++ [Credentials.Prompt "Enter API key"]) ∧
    Credentials.config st' = Some "" ∧
    Credentials.api_token st' = None ∧
    ∀ fuel',
      Credentials.load_config_key (T := Credentials.leaving_terminal) fuel' st' =
        (Credentials.Exits 1, later 2 Credentials.first_run, no_token_notice).
Proof.
  apply (@interrupted_prompt_leaves_empty_file Credentials.leaving_terminal 1 2
           Credentials.first_run).
  - reflexivity.
  - reflexivity.
  - lia.
  - intros j Hj. assert (Hj' : j = 0%nat) by lia. subst j.
    eexists; split; reflexivity.
  - reflexivity.
Defined.
